(** * Blockchain core of ganache-core: snapshot/revert, lifecycle, mining
      triggers, transaction queueing and the Executor dispatch shim.

    The development is a shallow embedding of

    - [src/unnamed/part_000]  (the current [Blockchain] class),
    - [src/src/chains/ethereum/src/blockchain.ts]  (the earlier [Blockchain]
      class, kept here in [Module Legacy]),
    - [src/unnamed/part_001]  (the [Executor] class).

    The classes are stateful: every method is a function from the object's
    fields (the record [Blockchain]) to the fields after the call, together
    with what the call returns or throws.  The collaborators that are not
    part of these files (the header hash, the [Quantity] conversions, the
    block manager's reads, the state manager and the database) are the
    fields of the record [Collaborators]; the calls made to them and the
    events emitted are appended to the [log] field in program order. *)

From Stdlib Require Import ZArith NArith List String Bool Lia.
From stdpp Require Import base decidable countable gmap strings list fin_maps.
Import ListNotations.

Local Open Scope string_scope.
Local Open Scope Z_scope.
Local Open Scope list_scope.

(** ** Bytes and buffers *)

(** A Node.js [Buffer] is a sequence of bytes. *)
Definition Buffer : Type := list Byte.byte.

#[global] Instance byte_eq_dec : EqDecision Byte.byte := Byte.byte_eq_dec.

#[global] Instance byte_countable : Countable Byte.byte :=
  inj_countable Byte.to_N Byte.of_N Byte.of_to_N.

(** [a.equals(b)] on buffers. *)
Definition equals (a b : Buffer) : bool := bool_decide (a = b).

(** ** JavaScript completions *)

(** An [Error] object: its message and the [result] property that
    [queueTransaction] may attach. *)
Record JsError : Type := mkJsError {
  message : string;
  result : option Buffer
}.

Definition Error (msg : string) : JsError := mkJsError msg None.

(** A TypeError of the engine: raised when a property is read from [null]
    or [undefined], when a value that is not a function is called, and when
    a value has no conversion to a string. *)
Definition TypeError : JsError := Error "TypeError".

(** A call either returns a value or throws. *)
Inductive Completion (A : Type) : Type :=
| Return (a : A)
| Throw (e : JsError).

Arguments Return {A} a.
Arguments Throw {A} e.

(** ** Data model *)

(** [enum Status]: bit flags. *)
Module Status.
Definition started : Z := 1.
Definition starting : Z := 2.
Definition stopped : Z := 4.
Definition stopping : Z := 8.
Definition paused : Z := 16.
End Status.

Definition Log : Type := Buffer.

Record Transaction : Type := mkTransaction {
  raw : list Buffer;
  tx_receipt : Buffer;          (* tx.getReceipt().serialize(true) *)
  tx_logs : list Log            (* tx.getLogs() *)
}.

Record Header : Type := mkHeader {
  parentHash : Buffer;
  number : Buffer;
  header_coinbase : Buffer;
  timestamp : Z;
  gasLimit : Buffer;
  transactionsTrie : Buffer;
  receiptTrie : Buffer;
  stateRoot : Buffer;
  gasUsed : Buffer
}.

(** [block.value]: a header and the transactions of the block. *)
Record Block : Type := mkBlock {
  header : Header;
  transactions : list Transaction
}.

(** The object pushed by [snapshot()]. *)
Record Snapshot : Type := mkSnapshot {
  snap_hash : Buffer;
  snap_stateRoot : Buffer;
  snap_timeAdjustment : Z
}.

(** [BlockLogs]: created for a block hash, then filled entry by entry. *)
Record BlockLogs : Type := mkBlockLogs {
  bl_blockHash : Buffer;
  bl_blockNumber : option Buffer;
  bl_entries : list (Buffer * Buffer * Log)
}.

(** What [snapshotId.valueOf()] may be. *)
Inductive RawValue : Type :=
| RawNull
| RawUndefined
| RawBigInt (n : Z).

Record Quantity : Type := mkQuantity { valueOf : RawValue }.

(** [BlockchainOptions], the fields the methods read. *)
Record BlockchainOptions : Type := mkOptions {
  opt_gasLimit : N;
  blockTime : option Z;
  legacyInstamine : bool;
  vmErrorsOnRPCResponse : bool
}.

(** Events of the emitter.  [transaction:<hash>] and
    [transaction-failure:<hash>] carry the hash they are named after. *)
Inductive Event : Type :=
| EvStart
| EvResume
| EvPause
| EvStop
| EvBlock (b : Block)
| EvBlockLogs (l : BlockLogs)
| EvPendingTransaction (tx : Transaction)
| EvTransaction (hash : Buffer)
| EvTransactionFailure (hash : Buffer) (err : JsError).

(** Writes that a [database.batch] callback issues to the managers. *)
Inductive DbOp : Type :=
| BlocksDel (key : Buffer)
| TransactionsDel (key : Buffer)
| TransactionReceiptsDel (key : Buffer)
| TransactionsSet (key value : Buffer)
| TransactionReceiptsSet (key value : Buffer)
| BlockLogsSet (key value : Buffer)
| BlocksPut (b : Block).

(** What a method does to the outside, in program order. *)
Inductive Effect : Type :=
| Emit (e : Event)
| Batch (ops : list DbOp)
| SetStateRoot (root : Buffer)
| DatabaseClose
| MinerMine (nextBlock : Block) (maxTransactions : Z)
| Warn (msg : string).

(** ** Collaborators

    [W] is the state of what the class does not own the code of: the
    key-value database behind the managers and the VM's state manager. *)
Record Collaborators (W : Type) : Type := mkCollaborators {
  (* header.hash(), which is also block.value.hash() *)
  header_hash : Header -> Buffer;
  (* tx.hash() *)
  tx_hash : Transaction -> Buffer;
  (* Quantity.from(buffer).toBigInt(): null for a buffer without a value *)
  toBigInt : Buffer -> option N;
  (* Quantity.from(n).toBuffer() *)
  toBuffer : N -> Buffer;
  rlpEncode : list Buffer -> Buffer;
  (* blockLogs.serialize() *)
  serialize : BlockLogs -> Buffer;
  (* blocks.get(key): null when the key is absent *)
  blocks_get : Buffer -> W -> option Block;
  (* blocks.getByHash(hash) *)
  blocks_getByHash : Buffer -> W -> option Block;
  (* the writes of one database.batch, applied *)
  db_batch : list DbOp -> W -> W;
  (* stateManager.setStateRoot(root): fails while a checkpoint is open *)
  setStateRoot : Buffer -> W -> Completion W;
  (* database.close() *)
  db_close : W -> W
}.

Arguments header_hash {W} _ _.
Arguments tx_hash {W} _ _.
Arguments toBigInt {W} _ _.
Arguments toBuffer {W} _ _.
Arguments rlpEncode {W} _ _.
Arguments serialize {W} _ _.
Arguments blocks_get {W} _ _ _.
Arguments blocks_getByHash {W} _ _ _.
Arguments db_batch {W} _ _ _.
Arguments setStateRoot {W} _ _ _.
Arguments db_close {W} _ _.

(** ** The fields of a [Blockchain] object *)

Record Blockchain (W : Type) : Type := mkBlockchain {
  state : Z;                         (* #state *)
  options : BlockchainOptions;       (* #options *)
  latest : option Block;             (* blocks.latest, null until genesis *)
  earliest : option Block;           (* blocks.earliest *)
  coinbase : Buffer;
  trie_root : Buffer;                (* trie.root *)
  timeAdjustment : Z;                (* #timeAdjustment *)
  snapshots : list Snapshot;         (* #snapshots *)
  waitingOnResume : option nat;      (* the drain listener's promise, by identity *)
  resumeOnce : list nat;             (* promises pending on once("resume") *)
  promisesMade : nat;                (* promises the drain listener has created *)
  world : W;
  log : list Effect
}.

Arguments mkBlockchain {W}.
Arguments state {W} _.
Arguments options {W} _.
Arguments latest {W} _.
Arguments earliest {W} _.
Arguments coinbase {W} _.
Arguments trie_root {W} _.
Arguments timeAdjustment {W} _.
Arguments snapshots {W} _.
Arguments waitingOnResume {W} _.
Arguments resumeOnce {W} _.
Arguments promisesMade {W} _.
Arguments world {W} _.
Arguments log {W} _.

Section Fields.
Context {W : Type}.

Definition set_state (v : Z) (b : Blockchain W) : Blockchain W :=
  mkBlockchain v (options b) (latest b) (earliest b) (coinbase b) (trie_root b)
    (timeAdjustment b) (snapshots b) (waitingOnResume b) (resumeOnce b)
    (promisesMade b) (world b) (log b).

Definition set_latest (v : option Block) (b : Blockchain W) : Blockchain W :=
  mkBlockchain (state b) (options b) v (earliest b) (coinbase b) (trie_root b)
    (timeAdjustment b) (snapshots b) (waitingOnResume b) (resumeOnce b)
    (promisesMade b) (world b) (log b).

Definition set_timeAdjustment (v : Z) (b : Blockchain W) : Blockchain W :=
  mkBlockchain (state b) (options b) (latest b) (earliest b) (coinbase b)
    (trie_root b) v (snapshots b) (waitingOnResume b) (resumeOnce b)
    (promisesMade b) (world b) (log b).

Definition set_snapshots (v : list Snapshot) (b : Blockchain W) : Blockchain W :=
  mkBlockchain (state b) (options b) (latest b) (earliest b) (coinbase b)
    (trie_root b) (timeAdjustment b) v (waitingOnResume b) (resumeOnce b)
    (promisesMade b) (world b) (log b).

Definition set_waitingOnResume (v : option nat) (b : Blockchain W) : Blockchain W :=
  mkBlockchain (state b) (options b) (latest b) (earliest b) (coinbase b)
    (trie_root b) (timeAdjustment b) (snapshots b) v (resumeOnce b)
    (promisesMade b) (world b) (log b).

Definition set_resumeOnce (v : list nat) (b : Blockchain W) : Blockchain W :=
  mkBlockchain (state b) (options b) (latest b) (earliest b) (coinbase b)
    (trie_root b) (timeAdjustment b) (snapshots b) (waitingOnResume b) v
    (promisesMade b) (world b) (log b).

Definition set_promisesMade (v : nat) (b : Blockchain W) : Blockchain W :=
  mkBlockchain (state b) (options b) (latest b) (earliest b) (coinbase b)
    (trie_root b) (timeAdjustment b) (snapshots b) (waitingOnResume b)
    (resumeOnce b) v (world b) (log b).

Definition set_world (v : W) (b : Blockchain W) : Blockchain W :=
  mkBlockchain (state b) (options b) (latest b) (earliest b) (coinbase b)
    (trie_root b) (timeAdjustment b) (snapshots b) (waitingOnResume b)
    (resumeOnce b) (promisesMade b) v (log b).

(** Appends one effect to the log. *)
Definition record (e : Effect) (b : Blockchain W) : Blockchain W :=
  mkBlockchain (state b) (options b) (latest b) (earliest b) (coinbase b)
    (trie_root b) (timeAdjustment b) (snapshots b) (waitingOnResume b)
    (resumeOnce b) (promisesMade b) (world b) (log b ++ [e]).

(** [this.emit(event)]. *)
Definition emit (e : Event) (b : Blockchain W) : Blockchain W := record (Emit e) b.

End Fields.

(** ** Blocks made by the block manager *)

(** Modelled from the spec: [BlockManager.createBlock] is not among the
    source files.  Section 3 has a block as [(header, transactions[])] and
    section 4.1 has the pipeline "construct the final block with" the header
    values it passes: the block made carries the given header values and no
    transactions yet. *)
Definition createBlock (h : Header) : Block := mkBlock h [].

(** [x || 0n] on the result of [toBigInt()]. *)
Definition or0 (v : option N) : N :=
  match v with
  | Some n => n
  | None => 0%N
  end.

(** What the miner hands to the ["block"] listener. *)
Record BlockData : Type := mkBlockData {
  bd_timestamp : Z;
  bd_transactionsTrie : Buffer;      (* blockData.transactionsTrie.root *)
  bd_receiptTrie : Buffer;           (* blockData.receiptTrie.root *)
  bd_gasUsed : N;
  blockTransactions : list Transaction
}.

(** ** The current [Blockchain] class ([src/unnamed/part_000]) *)

Section Methods.
Context {W : Type} (C : Collaborators W).

(** [this.#database.batch(fn)] where [fn] issues the writes [ops]. *)
Definition database_batch (ops : list DbOp) (b : Blockchain W) : Blockchain W :=
  set_world (db_batch C ops (world b)) (record (Batch ops) b).

(** [!options.blockTime || options.blockTime <= 0] *)
Definition instamine (o : BlockchainOptions) : bool :=
  match blockTime o with
  | None => true
  | Some t => (t =? 0) || (t <=? 0)
  end.

Definition isMining (b : Blockchain W) : bool := state b =? Status.started.

Definition isPaused (b : Blockchain W) : bool :=
  negb (Z.land (state b) Status.paused =? 0).

Definition pause (b : Blockchain W) : Blockchain W :=
  emit EvPause (set_state (Z.lor (state b) Status.paused) b).

(** [#currentTime()]; [now] is [Date.now()], in milliseconds. *)
Definition currentTime (now : Z) (b : Blockchain W) : Z :=
  now / 1000 + timeAdjustment b.

Definition increaseTime (seconds : Z) (b : Blockchain W) : Z * Blockchain W :=
  let seconds := if seconds <? 0 then 0 else seconds in
  let adjusted := timeAdjustment b + seconds in
  (adjusted, set_timeAdjustment adjusted b).

(** [setTime(timestamp)]: [timestamp] and [now] are whole milliseconds, so
    the subtraction is exact and [Math.floor] of the quotient is the floored
    integer quotient. *)
Definition setTime (now timestamp : Z) (b : Blockchain W) : Z * Blockchain W :=
  let adjusted := (timestamp - now) / 1000 in
  (adjusted, set_timeAdjustment adjusted b).

(** [#readyNextBlock(previousBlock, timestamp?)] *)
Definition readyNextBlock (now : Z) (previousBlock : Block) (ts : option Z)
    (b : Blockchain W) : Block :=
  let previousHeader := header previousBlock in
  let previousNumber := or0 (toBigInt C (number previousHeader)) in
  createBlock
    {| parentHash := header_hash C previousHeader;
       number := toBuffer C (previousNumber + 1)%N;
       header_coinbase := [];
       timestamp := match ts with None => currentTime now b | Some t => t end;
       gasLimit := toBuffer C (opt_gasLimit (options b));
       transactionsTrie := [];
       receiptTrie := [];
       stateRoot := [];
       gasUsed := [] |}.

(** [mine(maxTransactions, timestamp?)]: the call to [miner.mine] is logged
    with the block it is given. *)
Definition mine (now : Z) (maxTransactions : Z) (ts : option Z)
    (b : Blockchain W) : Completion unit * Blockchain W :=
  match latest b with
  | None => (Throw TypeError, b)
  | Some previousBlock =>
      let nextBlock := readyNextBlock now previousBlock ts b in
      (Return tt, record (MinerMine nextBlock maxTransactions) b)
  end.

(** *** The ["drain"] listener of instant mining *)

(** What the listener returns: the [waitingOnResume] promise (promises are
    told apart by the order of their creation) or the result of [mine(1)]. *)
Inductive DrainResult : Type :=
| DrainWaiting (promise : nat)
| DrainMined (c : Completion unit).

Definition onDrain (now : Z) (b : Blockchain W) : DrainResult * Blockchain W :=
  if isPaused b then
    match waitingOnResume b with
    | Some p => (DrainWaiting p, b)
    | None =>
        let p := promisesMade b in
        (DrainWaiting p,
         set_waitingOnResume (Some p)
           (set_resumeOnce (resumeOnce b ++ [p]) (set_promisesMade (S p) b)))
    end
  else
    let r := mine now 1 None b in
    (DrainMined (fst r), snd r).

(** The [then] callback of [this.once("resume")] in the listener. *)
Definition onResumed (now : Z) (b : Blockchain W) : Blockchain W :=
  let b := set_waitingOnResume None b in
  snd (mine now (-1) None b).

(** [this.emit("resume")]: every promise pending on [once("resume")] is
    resolved once, and its callback runs. *)
Definition emit_resume (now : Z) (b : Blockchain W) : Blockchain W :=
  let b := emit EvResume b in
  fold_left (fun acc (_ : nat) => onResumed now acc) (resumeOnce b)
    (set_resumeOnce [] b).

(** [resume(threads = 1)]; [threads] is not read. *)
Definition resume (now : Z) (b : Blockchain W) : Blockchain W :=
  if negb (isPaused b) then
    record (Warn "Warning: startMining called when miner was already started") b
  else
    emit_resume now (set_state (Z.lxor (state b) Status.paused) b).

(** *** The ["block"] listener of the miner *)

(** [blockLogs.append(index, hash, log)] for every log of a transaction. *)
Definition appendLogs (index hash : Buffer) (logs : list Log) (bl : BlockLogs)
    : BlockLogs :=
  fold_left
    (fun acc log =>
       mkBlockLogs (bl_blockHash acc) (bl_blockNumber acc)
         (bl_entries acc ++ [(index, hash, log)]))
    logs bl.

(** [blockData.blockTransactions.forEach((tx, i) => ...)] inside the batch,
    from index [i] on: the writes issued and the block logs gathered. *)
Fixpoint forEachTransaction (blockHash blockNumber : Buffer) (i : nat)
    (txs : list Transaction) (ops : list DbOp) (blockLogs : BlockLogs)
    : list DbOp * BlockLogs :=
  match txs with
  | [] => (ops, blockLogs)
  | tx :: rest =>
      let hash := tx_hash C tx in
      let extraData :=
        raw tx ++ [blockHash; blockNumber; toBuffer C (N.of_nat i)] in
      let encodedTx := rlpEncode C extraData in
      let encodedReceipt := tx_receipt tx in
      forEachTransaction blockHash blockNumber (S i) rest
        (ops ++ [TransactionsSet hash encodedTx;
                 TransactionReceiptsSet hash encodedReceipt])
        (appendLogs (toBuffer C (N.of_nat i)) hash (tx_logs tx) blockLogs)
  end.

Definition onBlock (blockData : BlockData) (b : Blockchain W)
    : Completion unit * Blockchain W :=
  match latest b with
  | None => (Throw TypeError, b)
  | Some previousBlock =>
      let previousHeader := header previousBlock in
      let previousNumber := or0 (toBigInt C (number previousHeader)) in
      let block :=
        createBlock
          {| parentHash := header_hash C previousHeader;
             number := toBuffer C (previousNumber + 1)%N;
             header_coinbase := coinbase b;
             timestamp := bd_timestamp blockData;
             gasLimit := toBuffer C (opt_gasLimit (options b));
             transactionsTrie := bd_transactionsTrie blockData;
             receiptTrie := bd_receiptTrie blockData;
             stateRoot := trie_root b;
             gasUsed := toBuffer C (bd_gasUsed blockData) |} in
      let b := set_latest (Some block) b in
      (* this.#database.batch(() => { ... }) *)
      let blockHash := header_hash C (header block) in
      let blockNumber := number (header block) in
      let stored :=
        forEachTransaction blockHash blockNumber 0
          (blockTransactions blockData) [] (mkBlockLogs blockHash None []) in
      let blockLogs :=
        mkBlockLogs (bl_blockHash (snd stored)) (Some blockNumber)
          (bl_entries (snd stored)) in
      let block := mkBlock (header block) (blockTransactions blockData) in
      let b :=
        database_batch
          (fst stored ++ [BlockLogsSet blockNumber (serialize C blockLogs);
                          BlocksPut block]) b in
      (* this.#processingBlock.then(({block, blockLogs}) => { ... }) *)
      let b := set_latest (Some block) b in
      let b :=
        if instamine (options b) && legacyInstamine (options b) then
          fold_left
            (fun acc tx => emit (EvTransaction (tx_hash C tx)) acc)
            (transactions block) b
        else b in
      (Return tt, emit (EvBlockLogs blockLogs) (emit (EvBlock block) b))
  end.

(** *** Snapshots *)

Definition snapshot (b : Blockchain W) : Completion Z * Blockchain W :=
  match latest b with
  | None => (Throw TypeError, b)
  | Some latestBlock =>
      let currentBlockHeader := header latestBlock in
      let hash := header_hash C currentBlockHeader in
      let stateRoot := stateRoot currentBlockHeader in
      let pushed :=
        snapshots b ++ [mkSnapshot hash stateRoot (timeAdjustment b)] in
      (Return (Z.of_nat (length pushed)), set_snapshots pushed b)
  end.

(** The writes of [#deleteBlockData(block)]'s batch. *)
Definition deleteBlockData_ops (block : Block) : list DbOp :=
  BlocksDel (number (header block))
  :: BlocksDel (header_hash C (header block))
  :: flat_map
       (fun tx =>
          let txHash := tx_hash C tx in
          [TransactionsDel txHash; TransactionReceiptsDel txHash])
       (transactions block).

Definition deleteBlockData (block : Block) (b : Blockchain W) : Blockchain W :=
  database_batch (deleteBlockData_ops block) b.

(** The [do ... while (nextBlock)] loop of [revert].  [fuel] bounds the
    number of iterations; [None] is a loop that has not ended within it. *)
Fixpoint revert_walk (fuel : nat) (snapshotHash : Buffer) (nextBlock : Block)
    (b : Blockchain W) : option (Blockchain W) :=
  match fuel with
  | O => None
  | S fuel' =>
      let b := deleteBlockData nextBlock b in
      let header := header nextBlock in
      if equals (parentHash header) snapshotHash then Some b
      else
        match blocks_get C (number header) (world b) with
        | Some next => revert_walk fuel' snapshotHash next b
        | None => Some b
        end
  end.

Definition revert (fuel : nat) (snapshotId : Quantity) (b : Blockchain W)
    : option (Completion bool * Blockchain W) :=
  match valueOf snapshotId with
  | RawNull | RawUndefined => Some (Throw (Error "invalid snapshotId"), b)
  | RawBigInt rawValue =>
      let snapshotNumber := rawValue - 1 in
      if snapshotNumber <? 0 then Some (Return false, b)
      else
        (* this.#snapshots.splice(Number(snapshotNumber)) *)
        let index := Z.to_nat snapshotNumber in
        let snapshotsToRemove := skipn index (snapshots b) in
        let b := set_snapshots (firstn index (snapshots b)) b in
        match snapshotsToRemove with
        | [] => Some (Return false, b)
        | snapshot :: _ =>
            match latest b with
            | None => Some (Throw TypeError, b)
            | Some currentBlock =>
                let currentHash := header_hash C (header currentBlock) in
                let snapshotHash := snap_hash snapshot in
                if equals currentHash snapshotHash then Some (Return true, b)
                else
                  let settingStateRoot :=
                    setStateRoot C (snap_stateRoot snapshot) (world b) in
                  let b :=
                    record (SetStateRoot (snap_stateRoot snapshot))
                      match settingStateRoot with
                      | Return w => set_world w b
                      | Throw _ => b
                      end in
                  let getBlock := blocks_getByHash C snapshotHash (world b) in
                  match revert_walk fuel snapshotHash currentBlock b with
                  | None => None
                  | Some b =>
                      (* await Promise.all(promises) *)
                      match settingStateRoot with
                      | Throw e => Some (Throw e, b)
                      | Return _ =>
                          let b := set_latest getBlock b in
                          let b :=
                            set_timeAdjustment (snap_timeAdjustment snapshot) b in
                          Some (Return true, b)
                      end
                  end
            end
        end
  end.

(** *** [queueTransaction] *)

(** How [await this.transactions.push(transaction, secretKey)] ends: it
    throws, or resolves to a truth value, the pool having possibly changed
    the transaction. *)
Inductive PushOutcome : Type :=
| PushThrows (e : JsError)
| PushResolves (accepted : bool) (transaction : Transaction).

(** The promise of [queueTransaction] after the code up to its next wait:
    settled, or suspended on the [Promise.race] of the two [once] promises
    for the hash. *)
Inductive Queued : Type :=
| Settled (c : Completion Buffer)
| Racing (hash : Buffer).

Definition queueTransaction (push : PushOutcome) (b : Blockchain W)
    : Queued * Blockchain W :=
  match push with
  | PushThrows e => (Settled (Throw e), b)
  | PushResolves accepted transaction =>
      let b :=
        if accepted then emit (EvPendingTransaction transaction) b else b in
      let hash := tx_hash C transaction in
      if isPaused b || negb (instamine (options b)) then
        (Settled (Return hash), b)
      else if instamine (options b) && legacyInstamine (options b) then
        (Racing hash, b)
      else (Settled (Return hash), b)
  end.

(** The value the race resolves to, given the events emitted after the
    suspension, oldest first: the data of the first of
    [transaction:<hash>] (no data) and [transaction-failure:<hash>] (the
    error); [None] while neither has been emitted. *)
Fixpoint race (hash : Buffer) (events : list Event) : option (option JsError) :=
  match events with
  | [] => None
  | EvTransaction h :: rest =>
      if equals h hash then Some None else race hash rest
  | EvTransactionFailure h err :: rest =>
      if equals h hash then Some (Some err) else race hash rest
  | _ :: rest => race hash rest
  end.

(** The rest of [queueTransaction] after the race has resolved to
    [errOrVoid]. *)
Definition queueTransaction_raced (hash : Buffer) (errOrVoid : option JsError)
    (b : Blockchain W) : Completion Buffer :=
  match errOrVoid with
  | Some err =>
      Throw
        (if vmErrorsOnRPCResponse (options b)
         then mkJsError (message err) (Some hash)
         else err)
  | None => Return hash
  end.

(** *** [stop] *)

(** [stop()] from its second [if] on. *)
Definition stop_proceed (b : Blockchain W) : Blockchain W :=
  let b :=
    if state b =? Status.started then
      let b := set_state Status.stopping b in
      let b := set_world (db_close C (world b)) (record DatabaseClose b) in
      set_state Status.stopped b
    else b in
  emit EvStop b.

(** [stop()]: [None] when the call is suspended on the ["start"] event (it
    goes on as [stop_proceed] from the fields as they are once ["start"] has
    been emitted). *)
Definition stop (b : Blockchain W) : option (Blockchain W) :=
  if state b =? Status.starting then None else Some (stop_proceed b).

(** The end of the database's ["ready"] listener, which is what emits
    ["start"]. *)
Definition started_by_ready (b : Blockchain W) : Blockchain W :=
  emit EvStart (set_state Status.started b).

(** *** More of the constructor *)

(** The time of the first block: [options.time], a [Date] read as
    milliseconds by [+options.time], also sets the clock; without it the
    time is [#currentTime()].

    [let firstBlockTime; if (options.time != null) { ... } else { ... }] *)
Definition firstBlockTime (now : Z) (time : option Z) (b : Blockchain W)
    : Z * Blockchain W :=
  match time with
  | Some t => (t, snd (setTime now t b))
  | None => (currentTime now b, b)
  end.

(** The listener of the miner's ["transaction-failure"] event:
    [failureData] is [{txHash, err}]. *)
Definition onTransactionFailure (txHash : Buffer) (err : JsError)
    (b : Blockchain W) : Blockchain W :=
  emit (EvTransactionFailure txHash err) b.

(** [options.blockTime * 1000]; read only when mining is not instant. *)
Definition minerInterval (o : BlockchainOptions) : Z :=
  match blockTime o with
  | Some t => t * 1000
  | None => 0
  end.

(** What interval mining keeps outside the fields: the timeouts set for
    [intervalMine], by the time they are due, and the number of calls of
    [intervalMine] suspended on [once("resume")]. *)
Record IntervalLoop : Type := mkIntervalLoop {
  timers : list Z;
  suspended : nat
}.

(** [promise.then(() => utils.unref(setTimeout(intervalMine, minerInterval)))]
    for the promise of [this.mine(-1)] made at [now]: the timeout is set
    when the promise resolves, and not when it rejects.  The time the
    promise takes to resolve is not counted: the timeout is due
    [minerInterval] after [now]. *)
Definition mineThenSetTimeout (now : Z) (s : Blockchain W * IntervalLoop)
    : Blockchain W * IntervalLoop :=
  match mine now (-1) None (fst s) with
  | (Return _, b) =>
      (b,
       mkIntervalLoop (timers (snd s) ++ [now + minerInterval (options b)])
         (suspended (snd s)))
  | (Throw _, b) => (b, snd s)
  end.

(** [intervalMine()], called at [now]. *)
Definition intervalMine (now : Z) (s : Blockchain W * IntervalLoop)
    : Blockchain W * IntervalLoop :=
  if isPaused (fst s) then
    (fst s, mkIntervalLoop (timers (snd s)) (S (suspended (snd s))))
  else mineThenSetTimeout now s.

(** The first timeout that is due at [now], taken out of the list. *)
Fixpoint takeDue (now : Z) (pending : list Z) : option (list Z) :=
  match pending with
  | [] => None
  | due :: rest =>
      if due <=? now then Some rest
      else
        match takeDue now rest with
        | Some rest' => Some (due :: rest')
        | None => None
        end
  end.

(** The timer: at [now] one timeout that is due, if there is one, runs
    [intervalMine]. *)
Definition onTimeout (now : Z) (s : Blockchain W * IntervalLoop)
    : Blockchain W * IntervalLoop :=
  match takeDue now (timers (snd s)) with
  | Some rest =>
      intervalMine now (fst s, mkIntervalLoop rest (suspended (snd s)))
  | None => s
  end.

(** [resume()] under interval mining: when ["resume"] is emitted, every
    suspended call of [intervalMine] goes on with [this.mine(-1)] and then
    sets its timeout. *)
Definition intervalResume (now : Z) (s : Blockchain W * IntervalLoop)
    : Blockchain W * IntervalLoop :=
  if isPaused (fst s) then
    Nat.iter (suspended (snd s)) (mineThenSetTimeout now)
      (resume now (fst s), mkIntervalLoop (timers (snd s)) 0)
  else (resume now (fst s), snd s).

End Methods.

(** ** The earlier [Blockchain] class
       ([src/src/chains/ethereum/src/blockchain.ts])

    The earlier class has the fields [#state], [blocks], [#timeAdjustment]
    and [#snapshots] of the current one, and no [#options], [#instamine] or
    block logs; its methods are given over the same record. *)

Module Legacy.
Section Methods.
Context {W : Type} (C : Collaborators W).

Definition currentTime (now : Z) (b : Blockchain W) : Z :=
  now / 1000 + timeAdjustment b.

(** [blockData.blockTransactions.forEach((tx, i) => ...)] inside the batch. *)
Fixpoint forEachTransaction (block : Block) (i : nat) (txs : list Transaction)
    (ops : list DbOp) : list DbOp :=
  match txs with
  | [] => ops
  | tx :: rest =>
      let hash := tx_hash C tx in
      let extraData :=
        raw tx ++ [header_hash C (header block); number (header block);
                   toBuffer C (N.of_nat i)] in
      let encodedTx := rlpEncode C extraData in
      let encodedReceipt := tx_receipt tx in
      forEachTransaction block (S i) rest
        (ops ++ [TransactionsSet hash encodedTx;
                 TransactionReceiptsSet hash encodedReceipt])
  end.

(** The ["block"] listener of the miner. *)
Definition onBlock (now : Z) (blockData : BlockData) (b : Blockchain W)
    : Completion unit * Blockchain W :=
  match latest b with
  | None => (Throw TypeError, b)
  | Some previousBlock =>
      let previousHeader := header previousBlock in
      let previousNumber := or0 (toBigInt C (number previousHeader)) in
      let block :=
        createBlock
          {| parentHash := header_hash C previousHeader;
             number := toBuffer C (previousNumber + 1)%N;
             header_coinbase := coinbase b;
             timestamp := currentTime now b;
             gasLimit := toBuffer C (opt_gasLimit (options b));
             transactionsTrie := bd_transactionsTrie blockData;
             receiptTrie := bd_receiptTrie blockData;
             stateRoot := trie_root b;
             gasUsed := toBuffer C (bd_gasUsed blockData) |} in
      let b := set_latest (Some block) b in
      (* lastBlock = this.#database.batch(() => { ... }) *)
      let ops := forEachTransaction block 0 (blockTransactions blockData) [] in
      let block := mkBlock (header block) (blockTransactions blockData) in
      let b :=
        set_world (db_batch C (ops ++ [BlocksPut block]) (world b))
          (record (Batch (ops ++ [BlocksPut block])) b) in
      (* lastBlock.then(block => { ... }) *)
      let b := set_latest (Some block) b in
      (Return tt, emit (EvBlock block) b)
  end.

Definition deleteBlockData_ops (block : Block) : list DbOp :=
  BlocksDel (number (header block))
  :: BlocksDel (header_hash C (header block))
  :: flat_map
       (fun tx =>
          let txHash := tx_hash C tx in
          [TransactionsDel txHash; TransactionReceiptsDel txHash])
       (transactions block).

Definition deleteBlockData (block : Block) (b : Blockchain W) : Blockchain W :=
  set_world (db_batch C (deleteBlockData_ops block) (world b))
    (record (Batch (deleteBlockData_ops block)) b).

Fixpoint revert_walk (fuel : nat) (snapshotHash : Buffer) (nextBlock : Block)
    (b : Blockchain W) : option (Blockchain W) :=
  match fuel with
  | O => None
  | S fuel' =>
      let b := deleteBlockData nextBlock b in
      let header := header nextBlock in
      if equals (parentHash header) snapshotHash then Some b
      else
        match blocks_get C (number header) (world b) with
        | Some next => revert_walk fuel' snapshotHash next b
        | None => Some b
        end
  end.

Definition revert (fuel : nat) (snapshotId : Quantity) (b : Blockchain W)
    : option (Completion bool * Blockchain W) :=
  match valueOf snapshotId with
  | RawNull | RawUndefined => Some (Throw (Error "invalid snapshotId"), b)
  | RawBigInt rawValue =>
      let snapshotNumber := rawValue - 1 in
      if snapshotNumber <? 0 then Some (Return false, b)
      else
        let index := Z.to_nat snapshotNumber in
        let snapshotsToRemove := skipn index (snapshots b) in
        let b := set_snapshots (firstn index (snapshots b)) b in
        match snapshotsToRemove with
        | [] => Some (Return false, b)
        | snapshot :: _ =>
            match latest b with
            | None => Some (Throw TypeError, b)
            | Some currentBlock =>
                let currentHash := header_hash C (header currentBlock) in
                let snapshotHash := snap_hash snapshot in
                if equals currentHash snapshotHash then Some (Return true, b)
                else
                  let settingStateRoot :=
                    setStateRoot C (snap_stateRoot snapshot) (world b) in
                  let b :=
                    record (SetStateRoot (snap_stateRoot snapshot))
                      match settingStateRoot with
                      | Return w => set_world w b
                      | Throw _ => b
                      end in
                  let getBlock := blocks_getByHash C snapshotHash (world b) in
                  match revert_walk fuel snapshotHash currentBlock b with
                  | None => None
                  | Some b =>
                      match settingStateRoot with
                      | Throw e => Some (Throw e, b)
                      | Return _ =>
                          let b := set_latest getBlock b in
                          let b :=
                            set_timeAdjustment (snap_timeAdjustment snapshot) b in
                          Some (Return true, b)
                      end
                  end
            end
        end
  end.

(** [readyNextBlock(timestamp?)], after [await lastBlock]:
    [timestamp || this.#currentTime()] takes the clock also for a
    timestamp of 0. *)
Definition readyNextBlock (now : Z) (ts : option Z) (b : Blockchain W)
    : Completion Block :=
  match latest b with
  | None => Throw TypeError
  | Some previousBlock =>
      let previousHeader := header previousBlock in
      let previousNumber := or0 (toBigInt C (number previousHeader)) in
      Return
        (createBlock
           {| parentHash := header_hash C previousHeader;
              number := toBuffer C (previousNumber + 1)%N;
              header_coinbase := [];
              timestamp :=
                match ts with
                | Some t => if t =? 0 then currentTime now b else t
                | None => currentTime now b
                end;
              gasLimit := toBuffer C (opt_gasLimit (options b));
              transactionsTrie := [];
              receiptTrie := [];
              stateRoot := [];
              gasUsed := [] |})
  end.

(** The ["drain"] listener of instant mining, for the event data
    [{timestamp, maxTransactions}] (each may be absent): [None] is the
    plain [return] of a paused chain. *)
Definition onDrain (now : Z) (ts maxTransactions : option Z)
    (b : Blockchain W) : option (Completion unit) * Blockchain W :=
  if negb (bool_decide (maxTransactions = Some 0)) && isPaused b then (None, b)
  else
    match readyNextBlock now ts b with
    | Throw e => (Some (Throw e), b)
    | Return block =>
        (Some (Return tt),
         record
           (MinerMine block
              match maxTransactions with None => 1 | Some _ => 0 end)
           b)
    end.

(** [queueTransaction(transaction, secretKey?)] *)
Definition queueTransaction (push : PushOutcome) (b : Blockchain W)
    : Completion Buffer * Blockchain W :=
  match push with
  | PushThrows e => (Throw e, b)
  | PushResolves _ transaction => (Return (tx_hash C transaction), b)
  end.

End Methods.
End Legacy.

(** ** The [Executor] class ([src/unnamed/part_001]) *)

Module Executor.

(** The [methodName] argument.  Its type is [keyof T], but the value comes
    from the caller as it is: a string, a Symbol, or a value of another
    type (a number, a boolean, [null], [undefined], an object).  [execute]
    uses a value that is not a string in one place only, the template
    literal [${methodName}], so such a value is kept as what its conversion
    to a string gives: a text, or the error the conversion throws (an
    object whose [toString] and [valueOf] give no primitive value, such as
    [{toString: 1}], has no conversion: a TypeError). *)
Inductive MethodName : Type :=
| NameString (s : string)
| NameSymbol
| NameOther (conversion : Completion string).

(** The template literal [`${methodName}`]; a Symbol has no implicit
    conversion to a string. *)
Definition template (m : MethodName) : Completion string :=
  match m with
  | NameString s => Return s
  | NameSymbol => Throw TypeError
  | NameOther conversion => conversion
  end.

(** The value of a property: a function object, told apart by a number, or
    a value whose [typeof] is not ["function"]. *)
Inductive Property : Type :=
| PropFunction (f : nat)
| PropOther.

(** The object [ledger.__proto__]: its own properties (where a class keeps
    the methods it declares) and the properties further up the prototype
    chain (for a class without a parent, those of [Object.prototype]). *)
Record Prototype : Type := mkPrototype {
  declared : gmap string Property;
  inherited : gmap string Property
}.

(** A ledger object: its own properties and what [ledger.__proto__] gives,
    the object's prototype; [None] when that is [undefined], as for an
    object made by [Object.create(null)].  Properties hold plain values:
    reading one runs no code. *)
Record Ledger : Type := mkLedger {
  own : gmap string Property;
  proto : option Prototype
}.

(** [p[name]] on the prototype: the first holder of the property along the
    chain; [None] is [undefined]. *)
Definition protoGet (p : Prototype) (name : string) : option Property :=
  match declared p !! name with
  | Some v => Some v
  | None => inherited p !! name
  end.

(** [ledger[name]] *)
Definition get (ledger : Ledger) (name : string) : option Property :=
  match own ledger !! name with
  | Some v => Some v
  | None =>
      match proto ledger with
      | Some p => protoGet p name
      | None => None
      end
  end.

Section Execute.
(** [P] is the type of the parameters and [R] of the results of ledger
    methods.  The functions of the program are collaborators:
    [apply f ledger params] is [f.apply(ledger, params)], and
    [ask f p name] is the call [f] receives as [p.hasOwnProperty(name)],
    with [p] as [this]: whether what it returns is truthy, or what it
    throws. *)
Context {P R : Type}
  (apply : nat -> Ledger -> list P -> Completion R)
  (ask : nat -> Prototype -> string -> Completion bool).

(** A call made by [execute]: [ledger.__proto__.hasOwnProperty(name)] or
    [fn.apply(this, params)]. *)
Inductive Call : Type :=
| Asked (fn : nat) (this : Prototype) (name : string)
| Applied (fn : nat) (this : Ledger) (params : list P).

(** [throw new Error(`Invalid or unsupported method: ${methodName}`)]: the
    message is built first, and what the conversion throws is thrown
    instead. *)
Definition invalid (methodName : MethodName) : Completion R :=
  match template methodName with
  | Return text => Throw (Error ("Invalid or unsupported method: " +:+ text))
  | Throw e => Throw e
  end.

(** [execute(ledger, methodName, params)]: the calls it makes and how its
    promise settles.  Reading [hasOwnProperty] from [undefined] and calling
    a value that is not a function are TypeErrors. *)
Definition execute (ledger : Ledger) (methodName : MethodName) (params : list P)
    : list Call * Completion R :=
  match methodName with
  | NameString name =>
      if String.eqb name "constructor" then ([], invalid methodName)
      else
        match proto ledger with
        | None => ([], Throw TypeError)
        | Some p =>
            match protoGet p "hasOwnProperty" with
            | Some (PropFunction h) =>
                match ask h p name with
                | Throw e => ([Asked h p name], Throw e)
                | Return false => ([Asked h p name], invalid methodName)
                | Return true =>
                    match get ledger name with
                    | Some (PropFunction fn) =>
                        ([Asked h p name; Applied fn ledger params],
                         apply fn ledger params)
                    | _ => ([Asked h p name], invalid methodName)
                    end
                end
            | _ => ([], Throw TypeError)
            end
        end
  | _ => ([], invalid methodName)
  end.


(** The calls of [execute] that apply a function of the ledger. *)
Definition applied (calls : list Call) : list Call :=
  List.filter (fun c => match c with Applied _ _ _ => true | Asked _ _ _ => false end)
    calls.

End Execute.


Section Specified.
Context {P R : Type}
  (apply : nat -> Ledger -> list P -> Completion R)
  (ask : nat -> Prototype -> string -> Completion bool).


End Specified.

End Executor.

(** ** A reference instance of the collaborators

    Used to run the methods on concrete chains.  Numbers are big-endian
    byte strings, hashes are 32-bit FNV-1a checksums, and the database is a
    finite map per keyspace. *)

Module Reference.

Definition byte_of (n : N) : Byte.byte :=
  match Byte.of_N (n mod 256)%N with
  | Some c => c
  | None => Byte.x00
  end.

(** Big-endian digits of [n] in base 256, most significant first. *)
Fixpoint digits (fuel : nat) (n : N) (acc : list Byte.byte) : list Byte.byte :=
  match fuel with
  | O => acc
  | S fuel' =>
      if (n =? 0)%N then acc
      else digits fuel' (n / 256)%N (byte_of n :: acc)
  end.

Definition toBuffer (n : N) : Buffer := digits (N.to_nat (N.size n)) n [].

Definition fromBuffer (buf : Buffer) : N :=
  fold_left (fun acc c => (acc * 256 + Byte.to_N c)%N) buf 0%N.

Definition toBigInt (buf : Buffer) : option N :=
  match buf with
  | [] => None
  | _ => Some (fromBuffer buf)
  end.

(** FNV-1a over the bytes, as four bytes. *)
Definition fnv1a (bytes : list Byte.byte) : Buffer :=
  let h :=
    fold_left
      (fun acc c => (N.lxor acc (Byte.to_N c) * 16777619 mod 4294967296)%N)
      bytes 2166136261%N in
  [byte_of (h / 16777216); byte_of (h / 65536); byte_of (h / 256); byte_of h].

Definition rlpEncode (items : list Buffer) : Buffer :=
  flat_map (fun item => byte_of (N.of_nat (length item)) :: item) items.

Definition header_hash (h : Header) : Buffer :=
  fnv1a
    (rlpEncode
       [parentHash h; number h; header_coinbase h;
        toBuffer (Z.to_N (timestamp h)); gasLimit h; transactionsTrie h;
        receiptTrie h; stateRoot h; gasUsed h]).

Definition tx_hash (tx : Transaction) : Buffer := fnv1a (rlpEncode (raw tx)).

Definition serialize (bl : BlockLogs) : Buffer :=
  rlpEncode
    (bl_blockHash bl
     :: flat_map (fun e => [fst (fst e); snd (fst e); snd e]) (bl_entries bl)).

(** Modelled from the spec: the database and the state manager are not
    among the source files.  Section 6 lists the keyspaces: [blocks] maps a
    block number and a block hash to the block; [transactions],
    [transactionReceipts] and [blockLogs] map a key to a record.  A write is
    visible to the reads that follow it, a read of an absent key gives
    nothing, and [setStateRoot] fails while a checkpoint is open
    (section 7, [RaceConditionOnSetStateRoot]). *)
Record Store : Type := mkStore {
  blocks : gmap (list Byte.byte) Block;
  stored_transactions : gmap (list Byte.byte) Buffer;
  transactionReceipts : gmap (list Byte.byte) Buffer;
  blockLogs : gmap (list Byte.byte) Buffer;
  vm_stateRoot : Buffer;
  checkpointOpen : bool;
  closed : bool
}.

Definition write (op : DbOp) (s : Store) : Store :=
  match op with
  | BlocksDel key =>
      mkStore (delete key (blocks s)) (stored_transactions s)
        (transactionReceipts s) (blockLogs s) (vm_stateRoot s)
        (checkpointOpen s) (closed s)
  | TransactionsDel key =>
      mkStore (blocks s) (delete key (stored_transactions s))
        (transactionReceipts s) (blockLogs s) (vm_stateRoot s)
        (checkpointOpen s) (closed s)
  | TransactionReceiptsDel key =>
      mkStore (blocks s) (stored_transactions s)
        (delete key (transactionReceipts s)) (blockLogs s) (vm_stateRoot s)
        (checkpointOpen s) (closed s)
  | TransactionsSet key value =>
      mkStore (blocks s) (<[key:=value]> (stored_transactions s))
        (transactionReceipts s) (blockLogs s) (vm_stateRoot s)
        (checkpointOpen s) (closed s)
  | TransactionReceiptsSet key value =>
      mkStore (blocks s) (stored_transactions s)
        (<[key:=value]> (transactionReceipts s)) (blockLogs s)
        (vm_stateRoot s) (checkpointOpen s) (closed s)
  | BlockLogsSet key value =>
      mkStore (blocks s) (stored_transactions s) (transactionReceipts s)
        (<[key:=value]> (blockLogs s)) (vm_stateRoot s) (checkpointOpen s)
        (closed s)
  | BlocksPut b =>
      mkStore
        (<[header_hash (header b):=b]> (<[number (header b):=b]> (blocks s)))
        (stored_transactions s) (transactionReceipts s) (blockLogs s)
        (vm_stateRoot s) (checkpointOpen s) (closed s)
  end.

Definition db_batch (ops : list DbOp) (s : Store) : Store :=
  fold_left (fun acc op => write op acc) ops s.

Definition blocks_get (key : Buffer) (s : Store) : option Block :=
  blocks s !! key.

Definition setStateRoot (root : Buffer) (s : Store) : Completion Store :=
  if checkpointOpen s then
    Throw (Error "Cannot set state root with uncommitted checkpoints")
  else
    Return
      (mkStore (blocks s) (stored_transactions s) (transactionReceipts s)
         (blockLogs s) root (checkpointOpen s) (closed s)).

Definition db_close (s : Store) : Store :=
  mkStore (blocks s) (stored_transactions s) (transactionReceipts s)
    (blockLogs s) (vm_stateRoot s) (checkpointOpen s) true.

Definition collaborators : Collaborators Store :=
  mkCollaborators Store header_hash tx_hash toBigInt toBuffer rlpEncode
    serialize blocks_get blocks_get db_batch setStateRoot db_close.

End Reference.

(** ** Sample chains over the reference instance *)

Module Sample.
Import Reference.

Definition chainOptions : BlockchainOptions :=
  mkOptions 6000000 None false false.

Definition legacyOptions : BlockchainOptions :=
  mkOptions 6000000 None true true.

(** The genesis block: number [0x0], the state root of the initial trie. *)
Definition genesis : Block :=
  createBlock
    (mkHeader [] [] [] 1577836800 (toBuffer 6000000) [] []
       [Byte.x0a; Byte.x0b] []).

Definition emptyStore : Store := mkStore ∅ ∅ ∅ ∅ [Byte.x0a; Byte.x0b] false false.

(** A chain that has just started: genesis stored, nothing else done. *)
Definition startedChain : Blockchain Store :=
  mkBlockchain Status.started chainOptions (Some genesis) (Some genesis)
    [Byte.xc0] [Byte.x0a; Byte.x0b] 0 [] None [] 0
    (db_batch [BlocksPut genesis] emptyStore) [].

(** The same chain in legacy instant mining with VM errors on responses. *)
Definition legacyChain : Blockchain Store :=
  mkBlockchain Status.started legacyOptions (Some genesis) (Some genesis)
    [Byte.xc0] [Byte.x0a; Byte.x0b] 0 [] None [] 0
    (db_batch [BlocksPut genesis] emptyStore) [].

Definition transfer : Transaction :=
  mkTransaction [[Byte.x00]; [Byte.x01]; [Byte.x52; Byte.x08]] [Byte.x01] [].

Definition minedOne : BlockData :=
  mkBlockData 1577836801 [Byte.x11] [Byte.x12] 21000 [transfer].

(** The started chain after [snapshot()], [increaseTime(30)] and one block
    mined. *)
Definition minedChain : Blockchain Store :=
  snd (onBlock collaborators minedOne
         (snd (increaseTime 30 (snd (snapshot collaborators startedChain))))).

(** ... and after a second block. *)
Definition minedTwiceChain : Blockchain Store :=
  snd (onBlock collaborators minedOne minedChain).

(** The started chain when blocks are mined every two seconds. *)
Definition intervalChain : Blockchain Store :=
  mkBlockchain Status.started (mkOptions 6000000 (Some 2) false false)
    (Some genesis) (Some genesis) [Byte.xc0] [Byte.x0a; Byte.x0b] 0 [] None []
    0 (db_batch [BlocksPut genesis] emptyStore) [].

(** A ledger whose class declares [eth_blockNumber] (a method) and
    [version] (not a function), and which inherits [toString] and
    [hasOwnProperty] from [Object.prototype]. *)
Definition ledger : Executor.Ledger :=
  Executor.mkLedger ∅
    (Some (Executor.mkPrototype
       (<["eth_blockNumber":=Executor.PropFunction 0]>
          (<["constructor":=Executor.PropFunction 1]>
             (<["version":=Executor.PropOther]> ∅)))
       (<["toString":=Executor.PropFunction 2]>
          (<["hasOwnProperty":=Executor.PropFunction 3]> ∅)))).

(** The same methods on an object without a prototype,
    [Object.assign(Object.create(null), {eth_blockNumber})]. *)
Definition bareLedger : Executor.Ledger :=
  Executor.mkLedger (<["eth_blockNumber":=Executor.PropFunction 0]> ∅) None.

(** A ledger whose class declares a [hasOwnProperty] of its own, function
    4, beside [eth_blockNumber]. *)
Definition laxLedger : Executor.Ledger :=
  Executor.mkLedger ∅
    (Some (Executor.mkPrototype
       (<["eth_blockNumber":=Executor.PropFunction 0]>
          (<["hasOwnProperty":=Executor.PropFunction 4]> ∅))
       (<["toString":=Executor.PropFunction 2]>
          (<["hasOwnProperty":=Executor.PropFunction 3]> ∅)))).

(** The functions of these ledgers, applied: function [fn] returns [fn]
    plus the number of its parameters. *)
Definition apply (fn : nat) (_ : Executor.Ledger) (params : list Z)
    : Completion nat :=
  Return (fn + length params)%nat.

(** The same functions called as [hasOwnProperty]: function 3 is the
    built-in, function 4 returns [true] whatever the name, and the others
    return [undefined]. *)
Definition ask (fn : nat) (p : Executor.Prototype) (name : string)
    : Completion bool :=
  match fn with
  | 3%nat => Return (bool_decide (is_Some (Executor.declared p !! name)))
  | 4%nat => Return true
  | _ => Return false
  end.

End Sample.

(** ** What the statements below observe *)

Section Observations.
Context {W : Type} (C : Collaborators W).

(** The number a header holds, read the way the pipeline reads it:
    [Quantity.from(header.number).toBigInt() || 0n]. *)
Definition header_number (h : Header) : N := or0 (toBigInt C (number h)).

Definition puts (ops : list DbOp) : list Block :=
  flat_map (fun op => match op with BlocksPut blk => [blk] | _ => [] end) ops.

(** The blocks committed so far: those put by the batches of the log. *)
Definition committed (l : list Effect) : list Block :=
  flat_map (fun e => match e with Batch ops => puts ops | _ => [] end) l.

Definition is_deletion (op : DbOp) : bool :=
  match op with
  | BlocksDel _ | TransactionsDel _ | TransactionReceiptsDel _ => true
  | _ => false
  end.

(** The deletions issued so far, in order. *)
Definition deletions (l : list Effect) : list DbOp :=
  flat_map
    (fun e => match e with Batch ops => List.filter is_deletion ops | _ => [] end)
    l.

(** The calls made to [miner.mine], in order: the [maxTransactions] of each. *)
Definition mined (l : list Effect) : list Z :=
  flat_map (fun e => match e with MinerMine _ n => [n] | _ => [] end) l.

(** The pipeline run on the block data of several ["block"] events. *)
Definition onBlocks (all : list BlockData) (b : Blockchain W) : Blockchain W :=
  fold_left (fun acc blockData => snd (onBlock C blockData acc)) all b.

(** Each block of the list has the hash of the one before it as parent and
    the number after its number, starting from [prev]. *)
Fixpoint linked (prev : Block) (bs : list Block) : Prop :=
  match bs with
  | [] => True
  | blk :: rest =>
      parentHash (header blk) = header_hash C (header prev)
      /\ number (header blk) = toBuffer C (header_number (header prev) + 1)%N
      /\ linked blk rest
  end.

(** [queueTransaction] followed to its end: how its promise settles, given
    how the push ends and the events emitted after the call was suspended,
    oldest first; [None] while it is still suspended. *)
Definition queueTransaction_settled (push : PushOutcome) (events : list Event)
    (b : Blockchain W) : option (Completion Buffer) :=
  match fst (queueTransaction C push b) with
  | Settled c => Some c
  | Racing hash =>
      match race hash events with
      | Some errOrVoid =>
          Some (queueTransaction_raced hash errOrVoid
                  (snd (queueTransaction C push b)))
      | None => None
      end
  end.

(** The drain listener run at each of the given times. *)
Fixpoint onDrains (nows : list Z) (b : Blockchain W)
    : list DrainResult * Blockchain W :=
  match nows with
  | [] => ([], b)
  | now :: later =>
      let r := onDrain C now b in
      let rs := onDrains later (snd r) in
      (fst r :: fst rs, snd rs)
  end.

(** The events emitted so far, in order. *)
Definition emitted (l : list Effect) : list Event :=
  flat_map (fun e => match e with Emit ev => [ev] | _ => [] end) l.

(** The effects of [after] that [before] does not have yet. *)
Definition since (before after : Blockchain W) : list Effect :=
  skipn (length (log before)) (log after).

(** The writes of the batches logged so far, in order. *)
Definition written (l : list Effect) : list DbOp :=
  flat_map (fun e => match e with Batch ops => ops | _ => [] end) l.

(** How often the database was closed. *)
Definition closes (l : list Effect) : nat :=
  length (List.filter (fun e => match e with DatabaseClose => true | _ => false end) l).

(** The writes a block's transactions get in the batch of the current
    class: the transaction at position [k], counted from [i], is stored
    under its hash with the block hash, the block number and [i + k]
    appended to its fields, and its receipt under the same hash. *)
Definition transactionWrites (blockHash blockNumber : Buffer) (i : nat)
    (txs : list Transaction) : list DbOp :=
  concat
    (imap
       (fun k tx =>
          [TransactionsSet (tx_hash C tx)
             (rlpEncode C
                (raw tx ++ [blockHash; blockNumber; toBuffer C (N.of_nat (i + k))]));
           TransactionReceiptsSet (tx_hash C tx) (tx_receipt tx)])
       txs).

(** The block log entries of a block's transactions: for the transaction
    at position [k], counted from [i], one entry per log, in order. *)
Definition logEntries (i : nat) (txs : list Transaction)
    : list (Buffer * Buffer * Log) :=
  concat
    (imap
       (fun k tx =>
          map (fun l => (toBuffer C (N.of_nat (i + k)), tx_hash C tx, l))
            (tx_logs tx))
       txs).

(** The block the listener builds from the latest block and the miner's
    data, with the transactions attached. *)
Definition builtBlock (blockData : BlockData) (b : Blockchain W)
    (previousBlock : Block) : Block :=
  mkBlock
    {| parentHash := header_hash C (header previousBlock);
       number := toBuffer C (header_number (header previousBlock) + 1)%N;
       header_coinbase := coinbase b;
       timestamp := bd_timestamp blockData;
       gasLimit := toBuffer C (opt_gasLimit (options b));
       transactionsTrie := bd_transactionsTrie blockData;
       receiptTrie := bd_receiptTrie blockData;
       stateRoot := trie_root b;
       gasUsed := toBuffer C (bd_gasUsed blockData) |}
    (blockTransactions blockData).

(** The block logs the listener gathers for a block. *)
Definition builtLogs (block : Block) : BlockLogs :=
  mkBlockLogs (header_hash C (header block)) (Some (number (header block)))
    (logEntries 0 (transactions block)).

(** What happens to a chain that mines on an interval. *)
Inductive LoopEvent : Type :=
| TimerAt (now : Z)
| PauseCalled
| ResumeCalled (now : Z).

Definition loopStep (s : Blockchain W * IntervalLoop) (e : LoopEvent)
    : Blockchain W * IntervalLoop :=
  match e with
  | TimerAt now => onTimeout C now s
  | PauseCalled => (pause (fst s), snd s)
  | ResumeCalled now => intervalResume C now s
  end.

Definition loopRun (events : list LoopEvent) (s : Blockchain W * IntervalLoop)
    : Blockchain W * IntervalLoop :=
  fold_left loopStep events s.

(** How many of the events are firings of the timer. *)
Definition timerEvents (events : list LoopEvent) : nat :=
  length
    (List.filter (fun e => match e with TimerAt _ => true | _ => false end)
       events).

(** [snapshot()] called [k] times in a row. *)
Definition snapshotTimes (k : nat) (b : Blockchain W) : Blockchain W :=
  Nat.iter k (fun acc => snd (snapshot C acc)) b.

End Observations.

(** * Properties *)

(** ** The block pipeline *)

Section BlockPipeline.
Context {W : Type} (C : Collaborators W).

Lemma committed_app (l1 l2 : list Effect) :
  committed (l1 ++ l2) = committed l1 ++ committed l2.
Proof. unfold committed. apply flat_map_app. Qed.

Lemma puts_app (o1 o2 : list DbOp) : puts (o1 ++ o2) = puts o1 ++ puts o2.
Proof. unfold puts. apply flat_map_app. Qed.

Lemma forEachTransaction_puts blockHash blockNumber txs :
  forall i ops bl,
    puts (fst (forEachTransaction C blockHash blockNumber i txs ops bl))
    = puts ops.
Proof.
  induction txs as [|tx rest IH]; intros i ops bl; simpl.
  - reflexivity.
  - rewrite IH, puts_app. simpl. apply app_nil_r.
Qed.

Lemma legacy_forEachTransaction_puts block txs :
  forall i ops, puts (Legacy.forEachTransaction C block i txs ops) = puts ops.
Proof.
  induction txs as [|tx rest IH]; intros i ops; simpl.
  - reflexivity.
  - rewrite IH, puts_app. simpl. apply app_nil_r.
Qed.

(** Emitting the per-transaction events changes the log only, and commits
    nothing. *)
Lemma emit_transactions_fields (txs : list Transaction) :
  forall b : Blockchain W,
    let b' :=
      fold_left (fun acc tx => emit (EvTransaction (tx_hash C tx)) acc) txs b in
    latest b' = latest b
    /\ committed (log b') = committed (log b).
Proof.
  induction txs as [|tx rest IH]; intros b; simpl.
  - split; reflexivity.
  - destruct (IH (emit (EvTransaction (tx_hash C tx)) b)) as [Hl Hc].
    split.
    + rewrite Hl. reflexivity.
    + rewrite Hc. simpl. rewrite committed_app. simpl. apply app_nil_r.
Qed.

(** One run of the listener: the block it commits, by its buffers. *)
Lemma onBlock_commits (blockData : BlockData) (b : Blockchain W)
    (previousBlock : Block) :
  latest b = Some previousBlock ->
  exists block,
    fst (onBlock C blockData b) = Return tt
    /\ latest (snd (onBlock C blockData b)) = Some block
    /\ committed (log (snd (onBlock C blockData b)))
       = committed (log b) ++ [block]
    /\ parentHash (header block) = header_hash C (header previousBlock)
    /\ number (header block)
       = toBuffer C (header_number C (header previousBlock) + 1)%N.
Proof.
  intros Hlatest.
  unfold onBlock. rewrite Hlatest. cbv zeta.
  set (hd := mkHeader _ _ _ _ _ _ _ _ _).
  exists (mkBlock hd (blockTransactions blockData)).
  cbn [fst snd createBlock header].
  split; [reflexivity|].
  assert (Hfields :
    forall b0 : Blockchain W,
      let b1 :=
        if instamine (options b0) && legacyInstamine (options b0)
        then fold_left
               (fun acc tx => emit (EvTransaction (tx_hash C tx)) acc)
               (transactions (mkBlock hd (blockTransactions blockData))) b0
        else b0 in
      latest b1 = latest b0 /\ committed (log b1) = committed (log b0)).
  { intros b0. cbv zeta.
    destruct (instamine (options b0) && legacyInstamine (options b0)).
    - apply emit_transactions_fields.
    - split; reflexivity. }
  match goal with
  | |- context [if _ then fold_left _ _ ?s else _] =>
      destruct (Hfields s) as [Hl Hc]
  end.
  cbv zeta in Hl, Hc.
  split; [|split; [|split; reflexivity]].
  - unfold emit, record; cbn [latest]. exact Hl.
  - unfold emit at 1 2. unfold record at 1 2. cbn [log].
    rewrite !committed_app, Hc. cbn [committed flat_map].
    rewrite !app_nil_r.
    unfold set_latest at 1. cbn [log]. unfold database_batch, set_world.
    cbn [log]. unfold record at 1. cbn [log].
    rewrite committed_app. cbn [committed flat_map].
    rewrite puts_app, forEachTransaction_puts. simpl. reflexivity.
Qed.

Lemma legacy_onBlock_commits (now : Z) (blockData : BlockData)
    (b : Blockchain W) (previousBlock : Block) :
  latest b = Some previousBlock ->
  exists block,
    fst (Legacy.onBlock C now blockData b) = Return tt
    /\ latest (snd (Legacy.onBlock C now blockData b)) = Some block
    /\ committed (log (snd (Legacy.onBlock C now blockData b)))
       = committed (log b) ++ [block]
    /\ parentHash (header block) = header_hash C (header previousBlock)
    /\ number (header block)
       = toBuffer C (header_number C (header previousBlock) + 1)%N.
Proof.
  intros Hlatest.
  unfold Legacy.onBlock. rewrite Hlatest. cbv zeta.
  set (hd := mkHeader _ _ _ _ _ _ _ _ _).
  exists (mkBlock hd (blockTransactions blockData)).
  cbn [fst snd createBlock header].
  split; [reflexivity|].
  split; [reflexivity|].
  split; [|split; reflexivity].
  unfold emit, record, set_latest, set_world. cbn [log].
  rewrite !committed_app. cbn [committed flat_map].
  rewrite puts_app, legacy_forEachTransaction_puts. simpl.
  rewrite !app_nil_r. reflexivity.
Qed.

(** A number written to a header is read back from it when it survives
    the trip through its buffer. *)
Lemma header_number_written (h : Header) (n : N) :
  number h = toBuffer C n ->
  toBigInt C (toBuffer C n) = Some n ->
  header_number C h = n.
Proof.
  intros Hh Htrip. unfold header_number. rewrite Hh, Htrip. reflexivity.
Qed.

(** C1.  With a latest block present, the block that one run of the
    miner's ["block"] listener commits (it becomes the latest block and is
    the one block the run puts into the database) has the hash of the
    header of the block that was latest before as its parent hash, and as
    its number the buffer of that block's number plus one; read back from
    the header, the number is the previous number plus one, so above zero,
    whenever the buffer written reads back as the number written.  This
    holds for the listener of the current class and for the one of the
    earlier class. *)
Theorem onBlock_links_to_previous
    (now : Z) (blockData : BlockData) (b : Blockchain W) (previousBlock : Block) :
  latest b = Some previousBlock ->
  (exists block,
      fst (onBlock C blockData b) = Return tt
      /\ latest (snd (onBlock C blockData b)) = Some block
      /\ committed (log (snd (onBlock C blockData b)))
         = committed (log b) ++ [block]
      /\ parentHash (header block) = header_hash C (header previousBlock)
      /\ number (header block)
         = toBuffer C (header_number C (header previousBlock) + 1)%N
      /\ (toBigInt C (number (header block))
          = Some (header_number C (header previousBlock) + 1)%N ->
          header_number C (header block)
          = (header_number C (header previousBlock) + 1)%N
          /\ (0 < header_number C (header block))%N))
  /\ (exists block,
         fst (Legacy.onBlock C now blockData b) = Return tt
         /\ latest (snd (Legacy.onBlock C now blockData b)) = Some block
         /\ committed (log (snd (Legacy.onBlock C now blockData b)))
            = committed (log b) ++ [block]
         /\ parentHash (header block) = header_hash C (header previousBlock)
         /\ number (header block)
            = toBuffer C (header_number C (header previousBlock) + 1)%N
         /\ (toBigInt C (number (header block))
             = Some (header_number C (header previousBlock) + 1)%N ->
             header_number C (header block)
             = (header_number C (header previousBlock) + 1)%N
             /\ (0 < header_number C (header block))%N)).
Proof.
  intros Hlatest.
  split.
  - destruct (onBlock_commits blockData b previousBlock Hlatest)
      as (block & Hret & Hnew & Hlog & Hparent & Hnumber).
    exists block. repeat (split; [assumption|]).
    intros Htrip. rewrite Hnumber in Htrip.
    pose proof (header_number_written _ _ Hnumber Htrip) as Hn.
    split; [exact Hn | rewrite Hn; lia].
  - destruct (legacy_onBlock_commits now blockData b previousBlock Hlatest)
      as (block & Hret & Hnew & Hlog & Hparent & Hnumber).
    exists block. repeat (split; [assumption|]).
    intros Htrip. rewrite Hnumber in Htrip.
    pose proof (header_number_written _ _ Hnumber Htrip) as Hn.
    split; [exact Hn | rewrite Hn; lia].
Qed.

Lemma last_cons {A : Type} (l : list A) :
  forall x d : A, List.last (x :: l) d = List.last l x.
Proof.
  induction l as [|y ys IH]; intros x d; [reflexivity|].
  change (List.last (y :: ys) d = List.last (y :: ys) x).
  rewrite !IH. reflexivity.
Qed.

(** X1.  Over a whole run of the pipeline, one ["block"] event after the
    other, the blocks committed form a chain from the block that was latest
    at the start: each has the hash of the one before it as parent hash and
    the buffer of its number plus one as number; the last of them is the
    latest block. *)
Lemma onBlocks_linked (all : list BlockData) :
  forall (b : Blockchain W) (first : Block),
    latest b = Some first ->
    exists news,
      committed (log (onBlocks C all b)) = committed (log b) ++ news
      /\ linked C first news
      /\ latest (onBlocks C all b) = Some (List.last news first)
      /\ length news = length all.
Proof.
  induction all as [|blockData rest IH]; intros b first Hlatest.
  - exists []. simpl. rewrite app_nil_r. auto.
  - destruct (onBlock_commits blockData b first Hlatest)
      as (block & _ & Hnew & Hlog & Hparent & Hnumber).
    destruct (IH (snd (onBlock C blockData b)) block Hnew)
      as (news & Hc & Hlinked & Hlast & Hlen).
    exists (block :: news).
    change (onBlocks C (blockData :: rest) b)
      with (onBlocks C rest (snd (onBlock C blockData b))).
    rewrite Hc, Hlog, <- app_assoc.
    split; [reflexivity|].
    split; [simpl; auto|].
    split; [|simpl; congruence].
    rewrite Hlast, last_cons. reflexivity.
Qed.

End BlockPipeline.

Lemma onBlock_links_to_previous_witness :
  latest Sample.startedChain = Some Sample.genesis
  /\ exists block,
       latest (snd (onBlock Reference.collaborators Sample.minedOne
                      Sample.startedChain)) = Some block
       /\ parentHash (header block)
          = Reference.header_hash (header Sample.genesis)
       /\ number (header block) = [Byte.x01]
       /\ header_number Reference.collaborators (header block) = 1%N.
Proof.
  split; [reflexivity|].
  destruct (onBlock_links_to_previous Reference.collaborators 0
              Sample.minedOne Sample.startedChain Sample.genesis eq_refl)
    as [(block & _ & Hlatest & _ & Hparent & Hnumber & Hread) _].
  exists block.
  split; [exact Hlatest|]. split; [exact Hparent|].
  split; [exact Hnumber|].
  apply Hread. rewrite Hnumber. reflexivity.
Defined.

(** Two blocks mined on the started chain form a chain from genesis. *)
Lemma onBlocks_linked_witness :
  exists first second,
    committed (log (onBlocks Reference.collaborators
                      [Sample.minedOne; Sample.minedOne] Sample.startedChain))
    = [first; second]
    /\ parentHash (header first) = Reference.header_hash (header Sample.genesis)
    /\ parentHash (header second) = Reference.header_hash (header first)
    /\ number (header first) = [Byte.x01]
    /\ number (header second) = [Byte.x02].
Proof.
  destruct (onBlocks_linked Reference.collaborators
              [Sample.minedOne; Sample.minedOne] Sample.startedChain
              Sample.genesis eq_refl)
    as (news & Hcommitted & Hlinked & _ & Hlength).
  destruct news as [|first [|second [|third more]]]; try discriminate Hlength.
  destruct Hlinked as (Hp1 & Hn1 & Hp2 & Hn2 & _).
  exists first, second.
  split; [exact Hcommitted|].
  split; [exact Hp1|]. split; [exact Hp2|].
  split; [exact Hn1|].
  rewrite Hn2. unfold header_number. rewrite Hn1. reflexivity.
Defined.

(** ** Time *)

Section Time.
Context {W : Type}.

(** C9, as the code has it.  [setTime(t)] sets the time adjustment to the
    floor of [(t - now) / 1000]: the difference of the two millisecond
    clocks, in whole seconds.  It also returns that value. *)
Theorem setTime_floor_of_seconds (now timestamp : Z) (b : Blockchain W) :
  timeAdjustment (snd (setTime now timestamp b)) = (timestamp - now) / 1000
  /\ fst (setTime now timestamp b) = (timestamp - now) / 1000
  /\ 1000 * timeAdjustment (snd (setTime now timestamp b)) <= timestamp - now
  /\ timestamp - now < 1000 * timeAdjustment (snd (setTime now timestamp b)) + 1000.
Proof.
  unfold setTime. cbn [fst snd set_timeAdjustment timeAdjustment].
  pose proof (Z.div_mod (timestamp - now) 1000 ltac:(lia)) as Hdm.
  pose proof (Z.mod_pos_bound (timestamp - now) 1000 ltac:(lia)) as Hm.
  repeat split; lia.
Qed.

(** X2.  [increaseTime(seconds)] adds [seconds] to the time adjustment when
    it is positive and nothing when it is negative, and returns the new
    adjustment. *)
Lemma increaseTime_clamps (seconds : Z) (b : Blockchain W) :
  timeAdjustment (snd (increaseTime seconds b))
  = timeAdjustment b + Z.max 0 seconds
  /\ fst (increaseTime seconds b) = timeAdjustment b + Z.max 0 seconds.
Proof.
  unfold increaseTime. cbn [fst snd set_timeAdjustment timeAdjustment].
  destruct (Z.ltb_spec seconds 0); split; lia.
Qed.

End Time.

(** C9, as the claim states it, fails: five seconds ahead of the clock the
    adjustment is 5, not the 5000 that dividing by 1 would give. *)
Lemma setTime_not_floor_of_milliseconds :
  timeAdjustment (snd (setTime 1000 6000 Sample.startedChain))
  <> (6000 - 1000) / 1.
Proof. vm_compute. discriminate. Qed.

(** ** Snapshots and revert *)

Section Snapshots.
Context {W : Type} (C : Collaborators W).

Lemma set_snapshots_same (b : Blockchain W) : set_snapshots (snapshots b) b = b.
Proof. destruct b. reflexivity. Qed.

(** C8.  With a latest block present, [snapshot()] pushes the record of
    the latest header's hash, the latest header's state root and the
    current time adjustment at the end of the stack, changes nothing else,
    and returns the record's ordinal: one more than its index. *)
Theorem snapshot_pushes_and_returns_ordinal
    (b : Blockchain W) (latestBlock : Block) :
  latest b = Some latestBlock ->
  fst (snapshot C b) = Return (Z.of_nat (length (snapshots b)) + 1)
  /\ snd (snapshot C b)
     = set_snapshots
         (snapshots b
          ++ [mkSnapshot (header_hash C (header latestBlock))
                (stateRoot (header latestBlock)) (timeAdjustment b)])
         b
  /\ snapshots (snd (snapshot C b)) !! length (snapshots b)
     = Some (mkSnapshot (header_hash C (header latestBlock))
               (stateRoot (header latestBlock)) (timeAdjustment b)).
Proof.
  intros Hlatest. unfold snapshot. rewrite Hlatest. cbn [fst snd].
  split; [|split].
  - rewrite length_app. cbn [length]. f_equal. lia.
  - reflexivity.
  - cbn [snapshots set_snapshots]. apply list_lookup_middle. reflexivity.
Qed.

(** C3.  [revert] throws [invalid snapshotId] when the raw value is null
    or undefined; it returns [false] when the ordinal minus 1 is negative,
    and when the stack has no element at that index; in each of these
    cases the fields are as before the call. *)
Theorem revert_rejects_bad_ordinals (fuel : nat) (b : Blockchain W) :
  revert C fuel (mkQuantity RawNull) b
  = Some (Throw (Error "invalid snapshotId"), b)
  /\ revert C fuel (mkQuantity RawUndefined) b
     = Some (Throw (Error "invalid snapshotId"), b)
  /\ (forall n : Z,
        n - 1 < 0 ->
        revert C fuel (mkQuantity (RawBigInt n)) b = Some (Return false, b))
  /\ (forall n : Z,
        0 <= n - 1 ->
        snapshots b !! Z.to_nat (n - 1) = None ->
        revert C fuel (mkQuantity (RawBigInt n)) b = Some (Return false, b)).
Proof.
  split; [reflexivity|]. split; [reflexivity|]. split.
  - intros n Hn. unfold revert. cbn [valueOf].
    destruct (Z.ltb_spec (n - 1) 0); [reflexivity | lia].
  - intros n Hn Habsent. unfold revert. cbn [valueOf].
    destruct (Z.ltb_spec (n - 1) 0); [lia|].
    apply lookup_ge_None in Habsent.
    rewrite (skipn_all2 (snapshots b)) by lia.
    rewrite (firstn_all2 (snapshots b)) by lia.
    rewrite set_snapshots_same. reflexivity.
Qed.

(** [revert] when the latest block is still the one of the snapshot: it
    returns [true] at once; only the stack is cut, the time adjustment
    stays what it was. *)
Lemma revert_at_snapshot_block (fuel : nat) (n : Z) (b : Blockchain W)
    (snapshot : Snapshot) (currentBlock : Block) :
  0 <= n - 1 ->
  snapshots b !! Z.to_nat (n - 1) = Some snapshot ->
  latest b = Some currentBlock ->
  header_hash C (header currentBlock) = snap_hash snapshot ->
  revert C fuel (mkQuantity (RawBigInt n)) b
  = Some (Return true,
          set_snapshots (firstn (Z.to_nat (n - 1)) (snapshots b)) b).
Proof.
  intros Hn Hsnap Hlatest Hsame. unfold revert. cbn [valueOf].
  destruct (Z.ltb_spec (n - 1) 0); [lia|].
  change (skipn (Z.to_nat (n - 1)) (snapshots b))
    with (drop (Z.to_nat (n - 1)) (snapshots b)).
  rewrite (drop_S _ _ _ Hsnap).
  cbn [latest set_snapshots]. rewrite Hlatest.
  unfold equals. rewrite Hsame, bool_decide_eq_true_2 by reflexivity.
  reflexivity.
Qed.

(** [revert] when blocks were added since the snapshot, as long as the
    walk back ends and the state root can be set. *)
Lemma revert_when_walk_ends (fuel : nat) (n : Z) (b walked : Blockchain W)
    (snapshot : Snapshot) (currentBlock : Block) (w : W) :
  0 <= n - 1 ->
  snapshots b !! Z.to_nat (n - 1) = Some snapshot ->
  latest b = Some currentBlock ->
  header_hash C (header currentBlock) <> snap_hash snapshot ->
  setStateRoot C (snap_stateRoot snapshot) (world b) = Return w ->
  revert_walk C fuel (snap_hash snapshot) currentBlock
    (record (SetStateRoot (snap_stateRoot snapshot))
       (set_world w
          (set_snapshots (firstn (Z.to_nat (n - 1)) (snapshots b)) b)))
  = Some walked ->
  revert C fuel (mkQuantity (RawBigInt n)) b
  = Some (Return true,
          set_timeAdjustment (snap_timeAdjustment snapshot)
            (set_latest (blocks_getByHash C (snap_hash snapshot) w) walked)).
Proof.
  intros Hn Hsnap Hlatest Hdiff Hroot Hwalk. unfold revert. cbn [valueOf].
  destruct (Z.ltb_spec (n - 1) 0); [lia|].
  change (skipn (Z.to_nat (n - 1)) (snapshots b))
    with (drop (Z.to_nat (n - 1)) (snapshots b)).
  rewrite (drop_S _ _ _ Hsnap).
  cbn [latest set_snapshots world]. rewrite Hlatest.
  unfold equals. rewrite bool_decide_eq_false_2 by exact Hdiff.
  rewrite Hroot. cbn [set_snapshots] in Hwalk. rewrite Hwalk.
  reflexivity.
Qed.

(** The walk ends after one block when that block's parent is the
    snapshot's block, and also when the read of the block's number, made
    after the block's records were deleted, finds nothing. *)
Lemma revert_walk_one_block (fuel : nat) (snapshotHash : Buffer)
    (nextBlock : Block) (b : Blockchain W) :
  parentHash (header nextBlock) = snapshotHash
  \/ blocks_get C (number (header nextBlock))
       (db_batch C (deleteBlockData_ops C nextBlock) (world b)) = None ->
  revert_walk C (S fuel) snapshotHash nextBlock b
  = Some (deleteBlockData C nextBlock b).
Proof.
  intros Hends. cbn [revert_walk].
  destruct (equals (parentHash (header nextBlock)) snapshotHash) eqn:Heq;
    [reflexivity|].
  destruct Hends as [Hparent|Habsent].
  - unfold equals in Heq. rewrite bool_decide_eq_true_2 in Heq by exact Hparent.
    discriminate.
  - unfold deleteBlockData at 1, database_batch. cbn [world set_world record].
    rewrite Habsent. reflexivity.
Qed.

(** X3.  [revert] to an existing snapshot when the latest block is not the
    snapshot's block and the state root can be set.  If the latest block's
    parent is the snapshot's block, or if the block manager no longer finds
    the latest block's number once its records are deleted, then [revert]
    ends after one round of its loop: it returns [true], the stack is cut
    at the snapshot, the records of the latest block (and of no other
    block) are deleted, the latest block becomes the block read by the
    snapshot's hash and the time adjustment is the snapshot's. *)
Lemma revert_after_new_blocks (fuel : nat) (n : Z) (b : Blockchain W)
    (snapshot : Snapshot) (currentBlock : Block) (w : W) :
  0 <= n - 1 ->
  snapshots b !! Z.to_nat (n - 1) = Some snapshot ->
  latest b = Some currentBlock ->
  header_hash C (header currentBlock) <> snap_hash snapshot ->
  setStateRoot C (snap_stateRoot snapshot) (world b) = Return w ->
  parentHash (header currentBlock) = snap_hash snapshot
  \/ blocks_get C (number (header currentBlock))
       (db_batch C (deleteBlockData_ops C currentBlock) w) = None ->
  revert C (S fuel) (mkQuantity (RawBigInt n)) b
  = Some (Return true,
          set_timeAdjustment (snap_timeAdjustment snapshot)
            (set_latest (blocks_getByHash C (snap_hash snapshot) w)
               (deleteBlockData C currentBlock
                  (record (SetStateRoot (snap_stateRoot snapshot))
                     (set_world w
                        (set_snapshots
                           (firstn (Z.to_nat (n - 1)) (snapshots b)) b)))))).
Proof.
  intros Hn Hsnap Hlatest Hdiff Hroot Hends.
  apply (revert_when_walk_ends (S fuel) n b _ snapshot currentBlock w);
    try assumption.
  apply revert_walk_one_block. exact Hends.
Qed.

Lemma deleteBlockData_equiv (block : Block) (b : Blockchain W) :
  Legacy.deleteBlockData C block b = deleteBlockData C block b.
Proof.
  unfold Legacy.deleteBlockData, deleteBlockData, database_batch.
  unfold Legacy.deleteBlockData_ops, deleteBlockData_ops. reflexivity.
Qed.

Lemma revert_walk_equiv (fuel : nat) (snapshotHash : Buffer) :
  forall (nextBlock : Block) (b : Blockchain W),
    Legacy.revert_walk C fuel snapshotHash nextBlock b
    = revert_walk C fuel snapshotHash nextBlock b.
Proof.
  induction fuel as [|fuel IH]; intros nextBlock b.
  - reflexivity.
  - cbn [Legacy.revert_walk revert_walk]. rewrite deleteBlockData_equiv.
    destruct (equals (parentHash (header nextBlock)) snapshotHash);
      [reflexivity|].
    destruct (blocks_get C (number (header nextBlock))
                (world (deleteBlockData C nextBlock b))) as [next|];
      [apply IH | reflexivity].
Qed.

(** C10.  The [revert] of the earlier class and the [revert] of the
    current class, each with its own [#deleteBlockData], agree on every
    snapshot stack, snapshot id and chain state: both end within the same
    number of loop iterations or neither does, they return the same value
    or throw the same error, they leave the same fields, and so the same
    effects in the same order: in particular the same deletions of blocks,
    transactions and receipts. *)
Theorem revert_legacy_equiv
    (fuel : nat) (snapshotId : Quantity) (b : Blockchain W) :
  Legacy.revert C fuel snapshotId b = revert C fuel snapshotId b
  /\ option_map fst (Legacy.revert C fuel snapshotId b)
     = option_map fst (revert C fuel snapshotId b)
  /\ option_map (fun r => deletions (log (snd r)))
       (Legacy.revert C fuel snapshotId b)
     = option_map (fun r => deletions (log (snd r)))
         (revert C fuel snapshotId b).
Proof.
  assert (Heq : Legacy.revert C fuel snapshotId b = revert C fuel snapshotId b).
  { unfold Legacy.revert, revert.
    destruct (valueOf snapshotId) as [| |rawValue];
      [reflexivity | reflexivity |].
    destruct (rawValue - 1 <? 0); [reflexivity|].
    destruct (skipn (Z.to_nat (rawValue - 1)) (snapshots b))
      as [|snapshot later]; [reflexivity|].
    destruct (latest _) as [currentBlock|]; [|reflexivity].
    destruct (equals _ _); [reflexivity|].
    rewrite revert_walk_equiv. reflexivity. }
  rewrite Heq. repeat split.
Qed.

End Snapshots.

Lemma snapshot_pushes_and_returns_ordinal_witness :
  latest Sample.startedChain = Some Sample.genesis
  /\ fst (snapshot Reference.collaborators Sample.startedChain) = Return 1
  /\ snapshots (snd (snapshot Reference.collaborators Sample.startedChain))
     !! 0%nat
     = Some (mkSnapshot (Reference.header_hash (header Sample.genesis))
               [Byte.x0a; Byte.x0b] 0).
Proof.
  split; [reflexivity|].
  destruct (snapshot_pushes_and_returns_ordinal Reference.collaborators
              Sample.startedChain Sample.genesis eq_refl)
    as (Hret & _ & Hat).
  split; [exact Hret | exact Hat].
Defined.

Lemma revert_rejects_bad_ordinals_witness :
  revert Reference.collaborators 1 (mkQuantity RawNull) Sample.startedChain
  = Some (Throw (Error "invalid snapshotId"), Sample.startedChain)
  /\ revert Reference.collaborators 1 (mkQuantity (RawBigInt 0))
       Sample.startedChain
     = Some (Return false, Sample.startedChain)
  /\ revert Reference.collaborators 1 (mkQuantity (RawBigInt 3))
       Sample.startedChain
     = Some (Return false, Sample.startedChain).
Proof.
  destruct (revert_rejects_bad_ordinals Reference.collaborators 1
              Sample.startedChain)
    as (Hnull & _ & Hnegative & Habsent).
  split; [exact Hnull|]. split.
  - apply Hnegative. lia.
  - apply Habsent; [lia | reflexivity].
Defined.

(** C2 at a concrete chain.  A snapshot is taken on the started chain
    (ordinal 1, time adjustment 0), the clock is moved 100 seconds ahead
    and no block is mined.  [revert(1)] then returns [true] through its
    early return: the latest block is the snapshot's block, and the time
    adjustment is still 100, not the 0 the snapshot recorded. *)
Theorem revert_at_snapshot_block_keeps_moved_time :
  fst (snapshot Reference.collaborators Sample.startedChain) = Return 1
  /\ snapshots (snd (snapshot Reference.collaborators Sample.startedChain))
     = [mkSnapshot (Reference.header_hash (header Sample.genesis))
          [Byte.x0a; Byte.x0b] 0]
  /\ exists reverted,
       revert Reference.collaborators 1 (mkQuantity (RawBigInt 1))
         (snd (increaseTime 100
                 (snd (snapshot Reference.collaborators Sample.startedChain))))
       = Some (Return true, reverted)
       /\ latest reverted = Some Sample.genesis
       /\ timeAdjustment reverted = 100
       /\ timeAdjustment reverted <> 0.
Proof.
  split; [reflexivity|]. split; [reflexivity|].
  eexists. split.
  - apply (revert_at_snapshot_block Reference.collaborators 1 1 _
             (mkSnapshot (Reference.header_hash (header Sample.genesis))
                [Byte.x0a; Byte.x0b] 0) Sample.genesis);
      [lia | reflexivity | reflexivity | reflexivity].
  - split; [reflexivity|]. split; [reflexivity | discriminate].
Qed.

(** ** Revert on the sample chains *)

(** One block after the snapshot: [revert(1)] walks back over it, deletes
    its records, sets the state root, makes genesis the latest block again
    and puts the time adjustment back from 30 to the snapshot's 0. *)
Lemma revert_after_new_blocks_witness :
  timeAdjustment Sample.minedChain = 30
  /\ exists reverted,
       revert Reference.collaborators 1 (mkQuantity (RawBigInt 1))
         Sample.minedChain
       = Some (Return true, reverted)
       /\ latest reverted = Some Sample.genesis
       /\ timeAdjustment reverted = 0
       /\ snapshots reverted = []
       /\ Reference.blocks (world reverted) !! [Byte.x01] = None
       /\ Reference.stored_transactions (world reverted)
          !! Reference.tx_hash Sample.transfer = None
       /\ length (deletions (log reverted)) = 4%nat.
Proof.
  split; [reflexivity|].
  eexists. split.
  - eapply (revert_after_new_blocks Reference.collaborators 0 1
              Sample.minedChain
              (mkSnapshot (Reference.header_hash (header Sample.genesis))
                 [Byte.x0a; Byte.x0b] 0));
      [lia | reflexivity | reflexivity | vm_compute; discriminate
      | reflexivity | left; reflexivity].
  - vm_compute. repeat split.
Defined.

(** Two blocks after the snapshot, over the reference store: the loop of
    [revert] reads the number of the block it has just deleted, finds
    nothing and ends, so block 2 is deleted and block 1 is still stored. *)
Example revert_two_blocks_on_sample :
  exists reverted,
    revert Reference.collaborators 2 (mkQuantity (RawBigInt 1))
      Sample.minedTwiceChain
    = Some (Return true, reverted)
    /\ latest reverted = Some Sample.genesis
    /\ timeAdjustment reverted = 0
    /\ Reference.blocks (world reverted) !! [Byte.x02] = None
    /\ is_Some (Reference.blocks (world reverted) !! [Byte.x01]).
Proof.
  eexists. split; [vm_compute; reflexivity|].
  vm_compute. repeat split. eexists. reflexivity.
Qed.

(** ** Lifecycle *)

Section Lifecycle.
Context {W : Type} (C : Collaborators W).

(** Every call that gets past the wait for ["start"] ends by emitting
    [stop]. *)
Lemma stop_proceed_emits_stop (b : Blockchain W) :
  exists before, log (stop_proceed C b) = before ++ [Emit EvStop].
Proof.
  unfold stop_proceed. cbv zeta. unfold emit, record. cbn [log].
  eexists. reflexivity.
Qed.

(** From [started] alone the database is closed and the state becomes
    [stopped]. *)
Lemma stop_from_started (b : Blockchain W) :
  state b = Status.started ->
  state (stop_proceed C b) = Status.stopped
  /\ log (stop_proceed C b) = log b ++ [DatabaseClose; Emit EvStop].
Proof.
  intros Hs. unfold stop_proceed. rewrite Hs. cbn.
  rewrite <- app_assoc. split; reflexivity.
Qed.

(** In any state other than [started] alone the state is left as it is. *)
Lemma stop_proceed_elsewhere (b : Blockchain W) :
  state b <> Status.started ->
  state (stop_proceed C b) = state b
  /\ log (stop_proceed C b) = log b ++ [Emit EvStop].
Proof.
  intros Hs. unfold stop_proceed.
  destruct (Z.eqb_spec (state b) Status.started); [contradiction|].
  split; reflexivity.
Qed.

(** A second [stop] leaves the state the first one left. *)
Lemma stop_proceed_state_idempotent (b : Blockchain W) :
  state (stop_proceed C (stop_proceed C b)) = state (stop_proceed C b).
Proof.
  destruct (Z.eq_dec (state b) Status.started) as [Hs|Hs].
  - destruct (stop_from_started b Hs) as [Hstopped _].
    apply stop_proceed_elsewhere. rewrite Hstopped. discriminate.
  - destruct (stop_proceed_elsewhere b Hs) as [Hsame _].
    apply stop_proceed_elsewhere. rewrite Hsame. exact Hs.
Qed.

(** With the [paused] bit set the state is not [started] alone, so [stop]
    neither closes the database nor changes the state. *)
Lemma stop_while_paused (b : Blockchain W) :
  isPaused b = true ->
  stop C b = Some (stop_proceed C b)
  /\ state (stop_proceed C b) = state b
  /\ log (stop_proceed C b) = log b ++ [Emit EvStop].
Proof.
  intros Hp. unfold isPaused in Hp.
  assert (Hne : forall v, Z.land v Status.paused = 0 -> state b <> v).
  { intros v Hv Heq. rewrite Heq, Hv in Hp. discriminate. }
  split.
  - unfold stop.
    destruct (Z.eqb_spec (state b) Status.starting) as [Heq|]; [|reflexivity].
    exfalso. exact (Hne Status.starting eq_refl Heq).
  - apply stop_proceed_elsewhere. exact (Hne Status.started eq_refl).
Qed.

(** X6.  A call made while the chain is starting waits for ["start"]; when the
    ["ready"] listener has emitted it, the call goes on and ends with the
    database closed and the state [stopped]. *)
Lemma stop_while_starting (b : Blockchain W) :
  state b = Status.starting ->
  stop C b = None
  /\ state (stop_proceed C (started_by_ready b)) = Status.stopped
  /\ log (stop_proceed C (started_by_ready b))
     = log b ++ [Emit EvStart; DatabaseClose; Emit EvStop].
Proof.
  intros Hs. split.
  - unfold stop. rewrite Hs. reflexivity.
  - destruct (stop_from_started (started_by_ready b) eq_refl) as [Hst Hlog].
    split; [exact Hst|]. rewrite Hlog. unfold started_by_ready, emit, record.
    cbn [log set_state]. rewrite <- app_assoc. reflexivity.
Qed.

End Lifecycle.

(** C5 at a concrete chain.  The started chain is paused, so its state is
    [started | paused] = 17.  [stop()] then emits [stop], but the state is
    still 17 and not [stopped], and the database has not been closed. *)
Theorem stop_of_paused_chain_is_not_stopped :
  state (pause Sample.startedChain) = 17
  /\ exists after,
       stop Reference.collaborators (pause Sample.startedChain) = Some after
       /\ state after = 17
       /\ state after <> Status.stopped
       /\ log after = [Emit EvPause; Emit EvStop]
       /\ Reference.closed (world after) = false.
Proof.
  split; [reflexivity|].
  destruct (stop_while_paused Reference.collaborators
              (pause Sample.startedChain) eq_refl)
    as (Hstop & Hstate & Hlog).
  eexists. split; [exact Hstop|].
  split; [exact Hstate|]. split; [rewrite Hstate; discriminate|].
  split; [exact Hlog|]. reflexivity.
Qed.

(** ** Queueing a transaction *)

Section Queueing.
Context {W : Type} (C : Collaborators W).

(** Events that do not settle the race are skipped. *)
Lemma race_app (hash : Buffer) (before after : list Event) :
  race hash before = None ->
  race hash (before ++ after) = race hash after.
Proof.
  induction before as [|e rest IH]; intros Hnone; [reflexivity|].
  destruct e; cbn [race app] in *; try (apply IH; exact Hnone).
  - destruct (equals hash0 hash); [discriminate | apply IH; exact Hnone].
  - destruct (equals hash0 hash); [discriminate | apply IH; exact Hnone].
Qed.

Lemma equals_same (a : Buffer) : equals a a = true.
Proof. unfold equals. apply bool_decide_eq_true_2. reflexivity. Qed.

(** The event [pendingTransaction] is emitted exactly when the pool
    accepts. *)
Lemma queueTransaction_log (accepted : bool) (transaction : Transaction)
    (b : Blockchain W) :
  log (snd (queueTransaction C (PushResolves accepted transaction) b))
  = log b ++ (if accepted then [Emit (EvPendingTransaction transaction)] else []).
Proof.
  unfold queueTransaction.
  destruct accepted; cbn [emit record];
    repeat match goal with |- context [if ?c then _ else _] => destruct c end;
    cbn [snd log]; rewrite ?app_nil_r; reflexivity.
Qed.

(** An error of the pool is what the call throws. *)
Lemma queueTransaction_push_throws (e : JsError) (events : list Event)
    (b : Blockchain W) :
  queueTransaction_settled C (PushThrows e) events b = Some (Throw e).
Proof. reflexivity. Qed.

(** C6.  Once the pool has taken the transaction, [queueTransaction]

    - returns the hash without waiting for any event when the chain is
      paused or does not mine instantly;
    - in legacy instant mining while not paused waits for the first of
      [transaction:<hash>] and [transaction-failure:<hash>]: when the
      failure comes first it throws the failure's error, with the hash as
      its [result] when [vmErrorsOnRPCResponse] is set and unchanged when
      it is not; when the completion comes first it returns the hash. *)
Theorem queueTransaction_returns_or_races
    (accepted : bool) (transaction : Transaction) (b : Blockchain W) :
  (isPaused b = true \/ instamine (options b) = false ->
   fst (queueTransaction C (PushResolves accepted transaction) b)
   = Settled (Return (tx_hash C transaction))
   /\ forall events,
        queueTransaction_settled C (PushResolves accepted transaction) events b
        = Some (Return (tx_hash C transaction)))
  /\ (isPaused b = false ->
      instamine (options b) = true ->
      legacyInstamine (options b) = true ->
      fst (queueTransaction C (PushResolves accepted transaction) b)
      = Racing (tx_hash C transaction)
      /\ queueTransaction_settled C (PushResolves accepted transaction) [] b
         = None
      /\ (forall before err after,
            race (tx_hash C transaction) before = None ->
            queueTransaction_settled C (PushResolves accepted transaction)
              (before
               ++ EvTransactionFailure (tx_hash C transaction) err :: after) b
            = Some (Throw
                      (if vmErrorsOnRPCResponse (options b)
                       then mkJsError (message err)
                              (Some (tx_hash C transaction))
                       else err)))
      /\ (forall before after,
            race (tx_hash C transaction) before = None ->
            queueTransaction_settled C (PushResolves accepted transaction)
              (before ++ EvTransaction (tx_hash C transaction) :: after) b
            = Some (Return (tx_hash C transaction)))).
Proof.
  assert (Hpaused :
    isPaused (if accepted then emit (EvPendingTransaction transaction) b else b)
    = isPaused b) by (destruct accepted; reflexivity).
  assert (Hoptions :
    options (if accepted then emit (EvPendingTransaction transaction) b else b)
    = options b) by (destruct accepted; reflexivity).
  split.
  - intros Hnow.
    assert (Hfst :
      fst (queueTransaction C (PushResolves accepted transaction) b)
      = Settled (Return (tx_hash C transaction))).
    { unfold queueTransaction. cbv zeta. rewrite Hpaused, Hoptions.
      destruct Hnow as [Hp|Hi].
      - rewrite Hp. reflexivity.
      - rewrite Hi, orb_true_r. reflexivity. }
    split; [exact Hfst|].
    intros events. unfold queueTransaction_settled. rewrite Hfst. reflexivity.
  - intros Hp Hi Hl.
    assert (Hrun :
      queueTransaction C (PushResolves accepted transaction) b
      = (Racing (tx_hash C transaction),
         if accepted then emit (EvPendingTransaction transaction) b else b)).
    { unfold queueTransaction. cbv zeta. rewrite Hpaused, Hoptions, Hp, Hi, Hl.
      reflexivity. }
    split; [rewrite Hrun; reflexivity|].
    split; [unfold queueTransaction_settled; rewrite Hrun; reflexivity|].
    split.
    + intros before err after Hbefore.
      unfold queueTransaction_settled. rewrite Hrun. cbn [fst snd].
      rewrite (race_app _ _ _ Hbefore). cbn [race].
      rewrite equals_same. unfold queueTransaction_raced.
      rewrite Hoptions. reflexivity.
    + intros before after Hbefore.
      unfold queueTransaction_settled. rewrite Hrun. cbn [fst snd].
      rewrite (race_app _ _ _ Hbefore). cbn [race].
      rewrite equals_same. reflexivity.
Qed.

(** Instant mining that is not the legacy kind does not wait either. *)
Lemma queueTransaction_instamine_returns (accepted : bool)
    (transaction : Transaction) (events : list Event) (b : Blockchain W) :
  legacyInstamine (options b) = false ->
  queueTransaction_settled C (PushResolves accepted transaction) events b
  = Some (Return (tx_hash C transaction)).
Proof.
  intros Hl. unfold queueTransaction_settled, queueTransaction. cbv zeta.
  replace (options (if accepted
                    then emit (EvPendingTransaction transaction) b else b))
    with (options b) by (destruct accepted; reflexivity).
  rewrite Hl, andb_false_r.
  destruct (isPaused _ || negb (instamine (options b))); reflexivity.
Qed.

End Queueing.

Lemma queueTransaction_returns_or_races_witness :
  isPaused Sample.legacyChain = false
  /\ queueTransaction_settled Reference.collaborators
       (PushResolves true Sample.transfer)
       [EvTransaction [Byte.x00];
        EvTransactionFailure (Reference.tx_hash Sample.transfer)
          (Error "VM Exception while processing transaction: revert")]
       Sample.legacyChain
     = Some (Throw
               (mkJsError "VM Exception while processing transaction: revert"
                  (Some (Reference.tx_hash Sample.transfer))))
  /\ queueTransaction_settled Reference.collaborators
       (PushResolves true Sample.transfer) []
       (pause Sample.legacyChain)
     = Some (Return (Reference.tx_hash Sample.transfer)).
Proof.
  split; [reflexivity|]. split.
  - destruct (queueTransaction_returns_or_races Reference.collaborators true
                Sample.transfer Sample.legacyChain)
      as [_ Hrace].
    destruct (Hrace eq_refl eq_refl eq_refl) as (_ & _ & Hfailure & _).
    exact (Hfailure [EvTransaction [Byte.x00]]
             (Error "VM Exception while processing transaction: revert")
             [] eq_refl).
  - destruct (queueTransaction_returns_or_races Reference.collaborators true
                Sample.transfer (pause Sample.legacyChain))
      as [Hnow _].
    destruct (Hnow (or_introl eq_refl)) as [_ Hsettled].
    exact (Hsettled []).
Defined.

(** ** The drain listener of instant mining *)

Section Draining.
Context {W : Type} (C : Collaborators W).

(** Toggling the [paused] bit of a paused state clears it. *)
Lemma paused_bit_toggled (s : Z) :
  Z.land s Status.paused <> 0 ->
  Z.land (Z.lxor s Status.paused) Status.paused = 0.
Proof.
  intros Hset.
  assert (Hbit : Z.testbit s 4 = true).
  { destruct (Z.testbit s 4) eqn:Hb; [reflexivity|].
    exfalso. apply Hset. apply Z.bits_inj'. intros n Hn.
    rewrite Z.land_spec, Z.bits_0.
    change Status.paused with (2 ^ 4).
    rewrite Z.pow2_bits_eqb by lia.
    destruct (Z.eqb_spec 4 n) as [<-|]; [rewrite Hb; reflexivity|].
    apply andb_false_r. }
  apply Z.bits_inj'. intros n Hn.
  rewrite Z.land_spec, Z.lxor_spec, Z.bits_0.
  change Status.paused with (2 ^ 4).
  rewrite Z.pow2_bits_eqb by lia.
  destruct (Z.eqb_spec 4 n) as [<-|]; [rewrite Hbit; reflexivity|].
  apply andb_false_r.
Qed.

(** While a promise is kept and the chain stays paused, a drain hands the
    kept promise back and changes nothing. *)
Lemma onDrain_while_waiting (now : Z) (b : Blockchain W) (p : nat) :
  isPaused b = true ->
  waitingOnResume b = Some p ->
  onDrain C now b = (DrainWaiting p, b).
Proof.
  intros Hp Hw. unfold onDrain. rewrite Hp, Hw. reflexivity.
Qed.

Lemma onDrains_while_waiting (nows : list Z) (b : Blockchain W) (p : nat) :
  isPaused b = true ->
  waitingOnResume b = Some p ->
  onDrains C nows b = (map (fun _ => DrainWaiting p) nows, b).
Proof.
  intros Hp Hw. induction nows as [|now later IH]; [reflexivity|].
  cbn [onDrains map]. rewrite (onDrain_while_waiting now b p Hp Hw).
  cbn [fst snd]. rewrite IH. reflexivity.
Qed.

Lemma mined_app (l1 l2 : list Effect) : mined (l1 ++ l2) = mined l1 ++ mined l2.
Proof. unfold mined. apply flat_map_app. Qed.

(** C7.  In instant mining the listener of the pool's [drain] event, on a
    chain with a latest block,

    - calls [mine(1)] when the chain is not paused, and returns what it
      returns;
    - when the chain is paused and no promise is kept yet, makes a new
      promise, keeps it as [waitingOnResume] and mines nothing; every later
      drain while still paused returns that same promise and makes no
      other; when [resume] is called, [mine(-1)] is called once and the
      kept promise is dropped. *)
Theorem drain_listener_mines_or_waits
    (now resumedAt : Z) (later : list Z) (b : Blockchain W)
    (latestBlock : Block) :
  latest b = Some latestBlock ->
  (isPaused b = false ->
   onDrain C now b
   = (DrainMined (fst (mine C now 1 None b)), snd (mine C now 1 None b))
   /\ fst (mine C now 1 None b) = Return tt
   /\ mined (log (snd (onDrain C now b))) = mined (log b) ++ [1])
  /\ (isPaused b = true ->
      waitingOnResume b = None ->
      resumeOnce b = [] ->
      fst (onDrain C now b) = DrainWaiting (promisesMade b)
      /\ waitingOnResume (snd (onDrain C now b)) = Some (promisesMade b)
      /\ promisesMade (snd (onDrain C now b)) = S (promisesMade b)
      /\ log (snd (onDrain C now b)) = log b
      /\ onDrains C later (snd (onDrain C now b))
         = (map (fun _ => DrainWaiting (promisesMade b)) later,
            snd (onDrain C now b))
      /\ mined (log (resume C resumedAt (snd (onDrains C (now :: later) b))))
         = mined (log b) ++ [-1]
      /\ waitingOnResume (resume C resumedAt (snd (onDrains C (now :: later) b)))
         = None
      /\ isPaused (resume C resumedAt (snd (onDrains C (now :: later) b)))
         = false).
Proof.
  intros Hlatest. split.
  - intros Hp. unfold onDrain. rewrite Hp.
    split; [reflexivity|].
    unfold mine. rewrite Hlatest. cbn [fst snd].
    split; [reflexivity|].
    unfold record. cbn [log]. rewrite mined_app. reflexivity.
  - intros Hp Hw Hr.
    assert (Hfirst :
      onDrain C now b
      = (DrainWaiting (promisesMade b),
         set_waitingOnResume (Some (promisesMade b))
           (set_resumeOnce (resumeOnce b ++ [promisesMade b])
              (set_promisesMade (S (promisesMade b)) b)))).
    { unfold onDrain. rewrite Hp, Hw. reflexivity. }
    assert (Hlater :
      onDrains C later (snd (onDrain C now b))
      = (map (fun _ => DrainWaiting (promisesMade b)) later,
         snd (onDrain C now b))).
    { apply onDrains_while_waiting; rewrite Hfirst; [exact Hp | reflexivity]. }
    cbn [onDrains]. rewrite Hlater. cbn [snd].
    rewrite Hfirst. cbn [fst snd].
    repeat (split; [reflexivity|]).
    unfold resume.
    replace (isPaused (set_waitingOnResume _ _)) with (isPaused b)
      by reflexivity.
    rewrite Hp. cbn [negb].
    unfold emit_resume. cbv zeta.
    cbn [resumeOnce emit record set_state set_waitingOnResume set_resumeOnce
         set_promisesMade].
    rewrite Hr. cbn [app fold_left].
    unfold onResumed, mine.
    repeat match goal with
           | |- context [latest ?x] =>
               lazymatch x with b => fail | _ => change (latest x) with (latest b) end
           end.
    rewrite Hlatest. cbn [snd].
    split; [|split].
    + unfold record at 1. cbn [log]. rewrite mined_app.
      match goal with
      | |- context [log ?x] =>
          change (log x) with (log b ++ [Emit EvResume])
      end.
      rewrite mined_app. cbn [mined flat_map app].
      rewrite app_nil_r. reflexivity.
    + reflexivity.
    + unfold isPaused.
      match goal with
      | |- context [state ?x] =>
          change (state x) with (Z.lxor (state b) Status.paused)
      end.
      rewrite paused_bit_toggled; [reflexivity|].
      unfold isPaused in Hp. intros Hz. rewrite Hz in Hp. discriminate.
Qed.

End Draining.

Lemma drain_listener_mines_or_waits_witness :
  latest Sample.startedChain = Some Sample.genesis
  /\ mined (log (snd (onDrain Reference.collaborators 1577836805000
                        Sample.startedChain))) = [1]
  /\ fst (onDrains Reference.collaborators
            [1577836805000; 1577836806000; 1577836807000]
            (pause Sample.startedChain))
     = [DrainWaiting 0; DrainWaiting 0; DrainWaiting 0]
  /\ mined (log (resume Reference.collaborators 1577836809000
                   (snd (onDrains Reference.collaborators
                           [1577836805000; 1577836806000; 1577836807000]
                           (pause Sample.startedChain))))) = [-1].
Proof.
  split; [reflexivity|].
  destruct (drain_listener_mines_or_waits Reference.collaborators
              1577836805000 1577836809000 [1577836806000; 1577836807000]
              Sample.startedChain Sample.genesis eq_refl)
    as [Hmine _].
  destruct (Hmine eq_refl) as (_ & _ & Hmined).
  split; [exact Hmined|].
  destruct (drain_listener_mines_or_waits Reference.collaborators
              1577836805000 1577836809000 [1577836806000; 1577836807000]
              (pause Sample.startedChain) Sample.genesis eq_refl)
    as [_ Hwait].
  destruct (Hwait eq_refl eq_refl eq_refl)
    as (_ & _ & _ & _ & _ & Hresumed & _).
  split; [reflexivity | exact Hresumed].
Defined.

(** ** Executor *)

Section Dispatch.
Import Executor.
Context {P R : Type}
  (apply : nat -> Ledger -> list P -> Completion R)
  (ask : nat -> Prototype -> string -> Completion bool).


(** A method declared by the class resolves on an instance without own
    properties to the class's function. *)
Lemma get_declared (ledger : Ledger) (p : Prototype) (name : string)
    (v : Property) :
  proto ledger = Some p ->
  own ledger !! name = None ->
  declared p !! name = Some v ->
  get ledger name = Some v.
Proof.
  intros Hproto Hown Hdecl. unfold get, protoGet.
  rewrite Hown, Hproto, Hdecl. reflexivity.
Qed.




(** X20.  A method name that is not a string, and the name
    ["constructor"], make [execute] call nothing, not even
    [hasOwnProperty], whatever the ledger is; its promise rejects, with
    [Invalid or unsupported method: <name>] when the name has a conversion
    to a string, and otherwise with the error of that conversion, which
    for a Symbol is a TypeError. *)
Theorem execute_refuses_without_a_call
    (ledger : Ledger) (methodName : MethodName) (params : list P) :
  methodName = NameString "constructor"
  \/ (forall name, methodName <> NameString name) ->
  fst (execute apply ask ledger methodName params) = []
  /\ snd (execute apply ask ledger methodName params)
     = match template methodName with
       | Return text =>
           Throw (Error ("Invalid or unsupported method: " +:+ text))
       | Throw e => Throw e
       end
  /\ (methodName = NameSymbol ->
      snd (execute apply ask ledger methodName params) = Throw TypeError).
Proof.
  intros [->|Hother].
  - split; [reflexivity|]. split; [reflexivity|]. discriminate.
  - destruct methodName as [name| |conversion].
    + exfalso. exact (Hother name eq_refl).
    + split; [reflexivity|]. split; reflexivity.
    + split; [reflexivity|]. split; [reflexivity|]. discriminate.
Qed.

(** On a ledger without a prototype every other string is refused with a
    TypeError: [hasOwnProperty] is read from [undefined]. *)
Lemma execute_without_prototype (ledger : Ledger) (name : string)
    (params : list P) :
  proto ledger = None ->
  name <> "constructor" ->
  execute apply ask ledger (NameString name) params = ([], Throw TypeError).
Proof.
  intros Hproto Hne. unfold execute.
  destruct (String.eqb_spec name "constructor") as [Hc|_]; [contradiction|].
  rewrite Hproto. reflexivity.
Qed.

End Dispatch.




Lemma execute_refuses_without_a_call_witness :
  fst (Executor.execute Sample.apply Sample.ask Sample.laxLedger
         Executor.NameSymbol [7]) = []
  /\ snd (Executor.execute Sample.apply Sample.ask Sample.laxLedger
            Executor.NameSymbol [7]) = Throw TypeError.
Proof.
  destruct (execute_refuses_without_a_call Sample.apply Sample.ask
              Sample.laxLedger Executor.NameSymbol [7])
    as (Hcalls & _ & Hthrow).
  - right. intros name. discriminate.
  - split; [exact Hcalls | exact (Hthrow eq_refl)].
Defined.

(** [execute] on the sample ledgers.  On the ledger of a class: a declared
    method is applied, after the built-in was asked; the constructor, an
    inherited method, a declared non-function, an unknown name and a name
    that is not a string are refused; a Symbol and an object without a
    string conversion end in a TypeError.  Without a prototype a method of
    the ledger ends in a TypeError; under a declared [hasOwnProperty] that
    accepts every name an inherited method is applied. *)
Example execute_on_sample_ledger :
  Executor.execute Sample.apply Sample.ask Sample.ledger
    (Executor.NameString "eth_blockNumber") []
  = ([Executor.Asked 3
        (Executor.mkPrototype
           (<["eth_blockNumber":=Executor.PropFunction 0]>
              (<["constructor":=Executor.PropFunction 1]>
                 (<["version":=Executor.PropOther]> ∅)))
           (<["toString":=Executor.PropFunction 2]>
              (<["hasOwnProperty":=Executor.PropFunction 3]> ∅)))
        "eth_blockNumber";
      Executor.Applied 0 Sample.ledger []], Return 0%nat)
  /\ Executor.execute Sample.apply Sample.ask Sample.ledger
       (Executor.NameString "constructor") []
     = ([], Throw (Error "Invalid or unsupported method: constructor"))
  /\ snd (Executor.execute Sample.apply Sample.ask Sample.ledger
            (Executor.NameString "toString") [])
     = Throw (Error "Invalid or unsupported method: toString")
  /\ snd (Executor.execute Sample.apply Sample.ask Sample.ledger
            (Executor.NameString "version") [])
     = Throw (Error "Invalid or unsupported method: version")
  /\ snd (Executor.execute Sample.apply Sample.ask Sample.ledger
            (Executor.NameString "eth_nope") [])
     = Throw (Error "Invalid or unsupported method: eth_nope")
  /\ Executor.execute Sample.apply Sample.ask Sample.ledger
       (Executor.NameOther (Return "42")) []
     = ([], Throw (Error "Invalid or unsupported method: 42"))
  /\ Executor.execute Sample.apply Sample.ask Sample.ledger
       Executor.NameSymbol []
     = ([], Throw TypeError)
  /\ Executor.execute Sample.apply Sample.ask Sample.ledger
       (Executor.NameOther (Throw TypeError)) []
     = ([], Throw TypeError)
  /\ Executor.execute Sample.apply Sample.ask Sample.bareLedger
       (Executor.NameString "eth_blockNumber") []
     = ([], Throw TypeError)
  /\ Executor.applied
       (fst (Executor.execute Sample.apply Sample.ask Sample.laxLedger
               (Executor.NameString "toString") []))
     = [Executor.Applied 2 Sample.laxLedger []].
Proof. vm_compute. repeat split. Qed.

(** ** Pausing, resuming and stopping *)

Section PauseResume.
Context {W : Type} (C : Collaborators W).

Lemma paused_bit_after_lor (s : Z) : Z.land (Z.lor s Status.paused) Status.paused <> 0.
Proof.
  intros Hz.
  assert (Hbit : Z.testbit (Z.land (Z.lor s Status.paused) Status.paused) 4 = true).
  { rewrite Z.land_spec, Z.lor_spec. change Status.paused with (2 ^ 4).
    rewrite Z.pow2_bits_true by lia. apply andb_true_iff. split.
    - apply orb_true_r.
    - reflexivity. }
  rewrite Hz, Z.bits_0 in Hbit. discriminate.
Qed.

Lemma paused_bit_set_then_toggled (s : Z) :
  Z.land s Status.paused = 0 ->
  Z.lxor (Z.lor s Status.paused) Status.paused = s.
Proof.
  intros Hclear.
  assert (Hbit : Z.testbit s 4 = false).
  { pose proof (f_equal (fun v => Z.testbit v 4) Hclear) as Hb. cbn beta in Hb.
    rewrite Z.land_spec, Z.bits_0 in Hb. change Status.paused with (2 ^ 4) in Hb.
    rewrite Z.pow2_bits_true, andb_true_r in Hb by lia. exact Hb. }
  apply Z.bits_inj'. intros n Hn.
  rewrite Z.lxor_spec, Z.lor_spec. change Status.paused with (2 ^ 4).
  rewrite Z.pow2_bits_eqb by lia.
  destruct (Z.eqb_spec 4 n) as [<-|].
  - rewrite Hbit. reflexivity.
  - rewrite orb_false_r, xorb_false_r. reflexivity.
Qed.

Lemma emitted_app (l1 l2 : list Effect) :
  emitted (l1 ++ l2) = emitted l1 ++ emitted l2.
Proof. unfold emitted. apply flat_map_app. Qed.

(** The callbacks run by ["resume"] mine; they leave the state, the latest
    block and the events alone. *)
Lemma onResumed_fields (now : Z) (b : Blockchain W) :
  state (onResumed C now b) = state b
  /\ latest (onResumed C now b) = latest b
  /\ emitted (log (onResumed C now b)) = emitted (log b).
Proof.
  unfold onResumed, mine. cbn [latest set_waitingOnResume].
  destruct (latest b) as [previousBlock|] eqn:Hlatest; cbn [snd].
  - split; [reflexivity|]. split; [exact Hlatest|].
    unfold record. cbn [log set_waitingOnResume].
    rewrite emitted_app. cbn. apply app_nil_r.
  - split; [reflexivity|]. split; [exact Hlatest | reflexivity].
Qed.

Lemma onResumed_all_fields (now : Z) (waiting : list nat) :
  forall b : Blockchain W,
    let after := fold_left (fun acc (_ : nat) => onResumed C now acc) waiting b in
    state after = state b
    /\ latest after = latest b
    /\ emitted (log after) = emitted (log b).
Proof.
  induction waiting as [|p rest IH]; intros b; cbn [fold_left].
  - repeat split.
  - destruct (IH (onResumed C now b)) as (Hs & Hl & He).
    destruct (onResumed_fields now b) as (Hs' & Hl' & He').
    cbv zeta in *. rewrite Hs, Hl, He. auto.
Qed.

(** [resume()] on a paused chain clears the bit, emits [resume] once and
    keeps the latest block. *)
Lemma resume_paused_fields (now : Z) (b : Blockchain W) :
  isPaused b = true ->
  state (resume C now b) = Z.lxor (state b) Status.paused
  /\ latest (resume C now b) = latest b
  /\ emitted (log (resume C now b)) = emitted (log b) ++ [EvResume].
Proof.
  intros Hp. unfold resume. rewrite Hp. cbn [negb]. unfold emit_resume.
  cbv zeta.
  match goal with
  | |- context [fold_left ?f ?l ?s] =>
      destruct (onResumed_all_fields now l s) as (Hs & Hl & He)
  end.
  cbv zeta in Hs, Hl, He. rewrite Hs, Hl, He.
  repeat split. unfold emit, record. cbn [log set_resumeOnce set_state].
  rewrite emitted_app. reflexivity.
Qed.

(** X4.  [pause()] on a chain that is not paused sets the [paused] bit, so
    the chain is paused and [isMining()] is false; pausing again changes
    nothing in the state; [resume()] then gives back the state there was
    before the pause, emitting [pause] and then [resume] and nothing else.
    [resume()] on a chain that is not paused emits no event and leaves the
    state as it is. *)
Theorem pause_then_resume_restores_state (now : Z) (b : Blockchain W) :
  isPaused b = false ->
  isPaused (pause b) = true
  /\ isMining (pause b) = false
  /\ state (pause (pause b)) = state (pause b)
  /\ state (resume C now (pause b)) = state b
  /\ emitted (log (resume C now (pause b)))
     = emitted (log b) ++ [EvPause; EvResume]
  /\ state (resume C now b) = state b
  /\ emitted (log (resume C now b)) = emitted (log b).
Proof.
  intros Hp.
  assert (Hclear : Z.land (state b) Status.paused = 0).
  { unfold isPaused in Hp. apply negb_false_iff in Hp.
    apply Z.eqb_eq in Hp. exact Hp. }
  assert (Hpaused : isPaused (pause b) = true).
  { unfold isPaused, pause, emit, record. cbn [state set_state].
    apply negb_true_iff. apply Z.eqb_neq. apply paused_bit_after_lor. }
  split; [exact Hpaused|]. split.
  { unfold isMining, pause, emit, record. cbn [state set_state].
    apply Z.eqb_neq. intros Heq.
    apply (paused_bit_after_lor (state b)). rewrite Heq. reflexivity. }
  split.
  { unfold pause, emit, record. cbn [state set_state].
    rewrite <- Z.lor_assoc. reflexivity. }
  destruct (resume_paused_fields now (pause b) Hpaused) as (Hs & _ & He).
  split.
  { rewrite Hs. unfold pause, emit, record. cbn [state set_state].
    apply paused_bit_set_then_toggled. exact Hclear. }
  split.
  { rewrite He. unfold pause, emit, record. cbn [log set_state].
    rewrite emitted_app, <- app_assoc. reflexivity. }
  unfold resume. rewrite Hp. cbn [negb]. unfold record. cbn [state log].
  split; [reflexivity|]. rewrite emitted_app. cbn. apply app_nil_r.
Qed.

Lemma since_app (b after : Blockchain W) (suffix : list Effect) :
  log after = log b ++ suffix -> since b after = suffix.
Proof.
  intros Hlog. unfold since. rewrite Hlog.
  change skipn with (@drop Effect). rewrite drop_app_length. reflexivity.
Qed.

Lemma closes_app (l1 l2 : list Effect) :
  closes (l1 ++ l2) = (closes l1 + closes l2)%nat.
Proof. unfold closes. rewrite List.filter_app, length_app. reflexivity. Qed.

(** X5.  Two calls of [stop()] in a row (each past its wait for
    ["start"]): the second leaves the state the first left, each emits
    [stop], and the database is closed at most once; when the chain was
    [started] it is closed exactly once and the state ends [stopped]. *)
Theorem stop_twice_closes_once (b : Blockchain W) :
  state (stop_proceed C (stop_proceed C b)) = state (stop_proceed C b)
  /\ emitted (since b (stop_proceed C (stop_proceed C b))) = [EvStop; EvStop]
  /\ (closes (log (stop_proceed C (stop_proceed C b))) <= S (closes (log b)))%nat
  /\ (state b = Status.started ->
      state (stop_proceed C (stop_proceed C b)) = Status.stopped
      /\ closes (log (stop_proceed C (stop_proceed C b))) = S (closes (log b))).
Proof.
  destruct (Z.eq_dec (state b) Status.started) as [Hs|Hs].
  - destruct (stop_from_started C b Hs) as [Hstate1 Hlog1].
    assert (Hne : state (stop_proceed C b) <> Status.started)
      by (rewrite Hstate1; discriminate).
    destruct (stop_proceed_elsewhere C (stop_proceed C b) Hne)
      as [Hstate2 Hlog2].
    assert (Hlog : log (stop_proceed C (stop_proceed C b))
                   = log b ++ [DatabaseClose; Emit EvStop; Emit EvStop]).
    { rewrite Hlog2, Hlog1, <- app_assoc. reflexivity. }
    split; [exact Hstate2|].
    split; [rewrite (since_app _ _ _ Hlog); reflexivity|].
    rewrite Hlog, closes_app.
    change (closes [DatabaseClose; Emit EvStop; Emit EvStop]) with 1%nat.
    split; [lia|]. intros _. split; [rewrite Hstate2; exact Hstate1 | lia].
  - destruct (stop_proceed_elsewhere C b Hs) as [Hstate1 Hlog1].
    assert (Hne : state (stop_proceed C b) <> Status.started)
      by (rewrite Hstate1; exact Hs).
    destruct (stop_proceed_elsewhere C (stop_proceed C b) Hne)
      as [Hstate2 Hlog2].
    assert (Hlog : log (stop_proceed C (stop_proceed C b))
                   = log b ++ [Emit EvStop; Emit EvStop]).
    { rewrite Hlog2, Hlog1, <- app_assoc. reflexivity. }
    split; [exact Hstate2|].
    split; [rewrite (since_app _ _ _ Hlog); reflexivity|].
    rewrite Hlog, closes_app.
    change (closes [Emit EvStop; Emit EvStop]) with 0%nat.
    split; [lia|]. intros Hstarted. contradiction.
Qed.

End PauseResume.

Lemma pause_then_resume_restores_state_witness :
  isPaused Sample.startedChain = false
  /\ state (pause Sample.startedChain) = 17
  /\ state (resume Reference.collaborators 0 (pause Sample.startedChain)) = 1
  /\ emitted (log (resume Reference.collaborators 0
                     (pause Sample.startedChain)))
     = [EvPause; EvResume].
Proof.
  split; [reflexivity|]. split; [reflexivity|].
  destruct (pause_then_resume_restores_state Reference.collaborators 0
              Sample.startedChain eq_refl)
    as (_ & _ & _ & Hstate & Hemitted & _).
  split; [exact Hstate | exact Hemitted].
Defined.

Lemma stop_twice_closes_once_witness :
  state Sample.startedChain = Status.started
  /\ state (stop_proceed Reference.collaborators
              (stop_proceed Reference.collaborators Sample.startedChain))
     = Status.stopped
  /\ closes (log (stop_proceed Reference.collaborators
                    (stop_proceed Reference.collaborators Sample.startedChain)))
     = 1%nat.
Proof.
  split; [reflexivity|].
  destruct (stop_twice_closes_once Reference.collaborators Sample.startedChain)
    as (_ & _ & _ & Hstarted).
  exact (Hstarted eq_refl).
Defined.

Lemma stop_while_starting_witness :
  state (set_state Status.starting Sample.startedChain) = Status.starting
  /\ stop Reference.collaborators
       (set_state Status.starting Sample.startedChain) = None
  /\ state (stop_proceed Reference.collaborators
              (started_by_ready
                 (set_state Status.starting Sample.startedChain)))
     = Status.stopped.
Proof.
  split; [reflexivity|].
  destruct (stop_while_starting Reference.collaborators
              (set_state Status.starting Sample.startedChain) eq_refl)
    as (Hwaits & Hstopped & _).
  split; [exact Hwaits | exact Hstopped].
Defined.

(** ** The clock *)

Section Clock.
Context {W : Type}.

(** X7.  [#currentTime()] never goes back: read at a later wall-clock time
    and after any [increaseTime], it is at least what it was. *)
Theorem currentTime_never_goes_back
    (now later seconds : Z) (b : Blockchain W) :
  now <= later ->
  currentTime now b <= currentTime later (snd (increaseTime seconds b))
  /\ currentTime now b <= currentTime later b.
Proof.
  intros Hle.
  pose proof (Z.div_le_mono now later 1000 ltac:(lia) Hle) as Hdiv.
  unfold currentTime, increaseTime. cbn [snd timeAdjustment set_timeAdjustment].
  destruct (Z.ltb_spec seconds 0); lia.
Qed.

(** X8.  When [options.time] is given, the constructor takes it, in
    milliseconds and unchanged, as the time of the first block, and sets
    the clock so that [#currentTime()] read at the same moment is the
    second in which that time lies or the second before it. *)
Theorem firstBlockTime_sets_clock (now time : Z) (b : Blockchain W) :
  fst (firstBlockTime now (Some time) b) = time
  /\ currentTime now (snd (firstBlockTime now (Some time) b)) <= time / 1000
  /\ time / 1000 <= currentTime now (snd (firstBlockTime now (Some time) b)) + 1
  /\ (now mod 1000 = 0 ->
      currentTime now (snd (firstBlockTime now (Some time) b)) = time / 1000).
Proof.
  unfold firstBlockTime, setTime, currentTime.
  cbn [fst snd timeAdjustment set_timeAdjustment].
  pose proof (Z.div_mod now 1000 ltac:(lia)) as Hn.
  pose proof (Z.mod_pos_bound now 1000 ltac:(lia)) as Hnr.
  pose proof (Z.div_mod (time - now) 1000 ltac:(lia)) as Hd.
  pose proof (Z.mod_pos_bound (time - now) 1000 ltac:(lia)) as Hdr.
  pose proof (Z.div_mod time 1000 ltac:(lia)) as Ht.
  pose proof (Z.mod_pos_bound time 1000 ltac:(lia)) as Htr.
  split; [reflexivity|].
  split; [nia|]. split; [nia|].
  intros Hz. nia.
Qed.

End Clock.

Lemma currentTime_never_goes_back_witness :
  1577836805000 <= 1577836809000
  /\ currentTime 1577836805000 Sample.startedChain
     <= currentTime 1577836809000 (snd (increaseTime (-5) Sample.startedChain)).
Proof.
  split; [lia|].
  apply (currentTime_never_goes_back 1577836805000 1577836809000 (-5)
           Sample.startedChain).
  lia.
Defined.

(** ** What the block listener writes and emits *)

Section BlockEffects.
Context {W : Type} (C : Collaborators W).

Lemma appendLogs_entries (index hash : Buffer) (logs : list Log) :
  forall bl : BlockLogs,
    appendLogs index hash logs bl
    = mkBlockLogs (bl_blockHash bl) (bl_blockNumber bl)
        (bl_entries bl ++ map (fun l => (index, hash, l)) logs).
Proof.
  unfold appendLogs.
  induction logs as [|l rest IH]; intros bl; cbn [fold_left map].
  - rewrite app_nil_r. destruct bl. reflexivity.
  - rewrite IH. cbn [bl_blockHash bl_blockNumber bl_entries].
    rewrite <- app_assoc. reflexivity.
Qed.

Lemma transactionWrites_cons (blockHash blockNumber : Buffer) (i : nat)
    (tx : Transaction) (rest : list Transaction) :
  transactionWrites C blockHash blockNumber i (tx :: rest)
  = [TransactionsSet (tx_hash C tx)
       (rlpEncode C
          (raw tx ++ [blockHash; blockNumber; toBuffer C (N.of_nat i)]));
     TransactionReceiptsSet (tx_hash C tx) (tx_receipt tx)]
    ++ transactionWrites C blockHash blockNumber (S i) rest.
Proof.
  unfold transactionWrites. cbn [imap concat].
  rewrite Nat.add_0_r. do 2 f_equal.
  apply imap_ext. intros k x _. cbn. rewrite Nat.add_succ_r. reflexivity.
Qed.

Lemma logEntries_cons (i : nat) (tx : Transaction) (rest : list Transaction) :
  logEntries C i (tx :: rest)
  = map (fun l => (toBuffer C (N.of_nat i), tx_hash C tx, l)) (tx_logs tx)
    ++ logEntries C (S i) rest.
Proof.
  unfold logEntries. cbn [imap concat].
  rewrite Nat.add_0_r. do 2 f_equal.
  apply imap_ext. intros k x _. cbn. rewrite Nat.add_succ_r. reflexivity.
Qed.

(** The loop over the transactions, as a whole. *)
Lemma forEachTransaction_all (blockHash blockNumber : Buffer)
    (txs : list Transaction) :
  forall (i : nat) (ops : list DbOp) (bl : BlockLogs),
    forEachTransaction C blockHash blockNumber i txs ops bl
    = (ops ++ transactionWrites C blockHash blockNumber i txs,
       mkBlockLogs (bl_blockHash bl) (bl_blockNumber bl)
         (bl_entries bl ++ logEntries C i txs)).
Proof.
  induction txs as [|tx rest IH]; intros i ops bl.
  - cbn. rewrite !app_nil_r. destruct bl. reflexivity.
  - cbn [forEachTransaction]. rewrite IH, appendLogs_entries.
    cbn [bl_blockHash bl_blockNumber bl_entries].
    rewrite transactionWrites_cons, logEntries_cons, <- !app_assoc.
    reflexivity.
Qed.

Lemma legacy_forEachTransaction_all (block : Block) (txs : list Transaction) :
  forall (i : nat) (ops : list DbOp),
    Legacy.forEachTransaction C block i txs ops
    = ops
      ++ transactionWrites C (header_hash C (header block))
           (number (header block)) i txs.
Proof.
  induction txs as [|tx rest IH]; intros i ops.
  - cbn. rewrite app_nil_r. reflexivity.
  - cbn [Legacy.forEachTransaction]. rewrite IH, transactionWrites_cons,
      <- !app_assoc. reflexivity.
Qed.

Lemma emit_transactions_log (txs : list Transaction) :
  forall b : Blockchain W,
    log (fold_left (fun acc tx => emit (EvTransaction (tx_hash C tx)) acc) txs b)
    = log b ++ map (fun tx => Emit (EvTransaction (tx_hash C tx))) txs
    /\ latest
         (fold_left (fun acc tx => emit (EvTransaction (tx_hash C tx)) acc) txs b)
       = latest b.
Proof.
  induction txs as [|tx rest IH]; intros b; cbn [fold_left map].
  - rewrite app_nil_r. split; reflexivity.
  - destruct (IH (emit (EvTransaction (tx_hash C tx)) b)) as [Hlog Hlatest].
    rewrite Hlog, Hlatest. split; [|reflexivity].
    unfold emit, record. cbn [log]. rewrite <- app_assoc. reflexivity.
Qed.

Lemma log_emit (e : Event) (b : Blockchain W) : log (emit e b) = log b ++ [Emit e].
Proof. reflexivity. Qed.

Lemma latest_emit (e : Event) (b : Blockchain W) : latest (emit e b) = latest b.
Proof. reflexivity. Qed.

Lemma log_set_latest (v : option Block) (b : Blockchain W) :
  log (set_latest v b) = log b.
Proof. reflexivity. Qed.

Lemma latest_set_latest (v : option Block) (b : Blockchain W) :
  latest (set_latest v b) = v.
Proof. reflexivity. Qed.

Lemma log_database_batch (ops : list DbOp) (b : Blockchain W) :
  log (database_batch C ops b) = log b ++ [Batch ops].
Proof. reflexivity. Qed.

Lemma options_during_onBlock (v v' : option Block) (ops : list DbOp)
    (b : Blockchain W) :
  options (set_latest v (database_batch C ops (set_latest v' b))) = options b.
Proof. reflexivity. Qed.

(** Everything one run of the listener adds to the log. *)
Lemma onBlock_log (blockData : BlockData) (b : Blockchain W)
    (previousBlock : Block) :
  latest b = Some previousBlock ->
  latest (snd (onBlock C blockData b))
  = Some (builtBlock C blockData b previousBlock)
  /\ log (snd (onBlock C blockData b))
     = log b
       ++ Batch
            (transactionWrites C
               (header_hash C (header (builtBlock C blockData b previousBlock)))
               (number (header (builtBlock C blockData b previousBlock))) 0
               (blockTransactions blockData)
             ++ [BlockLogsSet
                   (number (header (builtBlock C blockData b previousBlock)))
                   (serialize C
                      (builtLogs C (builtBlock C blockData b previousBlock)));
                 BlocksPut (builtBlock C blockData b previousBlock)])
          :: (if instamine (options b) && legacyInstamine (options b)
              then map (fun tx => Emit (EvTransaction (tx_hash C tx)))
                     (blockTransactions blockData)
              else [])
          ++ [Emit (EvBlock (builtBlock C blockData b previousBlock));
              Emit (EvBlockLogs
                      (builtLogs C (builtBlock C blockData b previousBlock)))].
Proof.
  intros Hlatest. unfold onBlock. rewrite Hlatest. cbv zeta.
  rewrite forEachTransaction_all.
  cbn [fst snd createBlock header bl_blockHash bl_blockNumber bl_entries app].
  fold (header_number C (header previousBlock)).
  fold (builtBlock C blockData b previousBlock).
  rewrite options_during_onBlock.
  rewrite !latest_emit, !log_emit.
  destruct (instamine (options b) && legacyInstamine (options b)).
  - match goal with
    | |- context [fold_left ?f ?txs ?s] =>
        destruct (emit_transactions_log txs s) as [Hl Hn]
    end.
    rewrite Hl, Hn, latest_set_latest, log_set_latest, log_database_batch,
      log_set_latest.
    split; [reflexivity|].
    rewrite <- !app_assoc. reflexivity.
  - rewrite latest_set_latest, log_set_latest, log_database_batch,
      log_set_latest.
    split; [reflexivity|].
    rewrite <- !app_assoc. reflexivity.
Qed.

End BlockEffects.

Section BlockFacts.
Context {W : Type} (C : Collaborators W).

Lemma written_app (l1 l2 : list Effect) :
  written (l1 ++ l2) = written l1 ++ written l2.
Proof. unfold written. apply flat_map_app. Qed.

Lemma written_emits (events : list Event) (f : Event -> Effect) :
  (forall e, f e = Emit e) -> written (map f events) = [].
Proof.
  intros Hf. induction events as [|e rest IH]; [reflexivity|].
  cbn [map]. rewrite Hf. exact IH.
Qed.

Lemma emitted_emits (events : list Event) : emitted (map Emit events) = events.
Proof.
  induction events as [|e rest IH]; [reflexivity|].
  cbn [map]. change (emitted (Emit e :: map Emit rest))
    with (e :: emitted (map Emit rest)). rewrite IH. reflexivity.
Qed.

Lemma transactionWrites_at (blockHash blockNumber : Buffer)
    (txs : list Transaction) :
  forall (i k : nat) (tx : Transaction),
    txs !! k = Some tx ->
    In (TransactionsSet (tx_hash C tx)
          (rlpEncode C
             (raw tx ++ [blockHash; blockNumber; toBuffer C (N.of_nat (i + k))])))
       (transactionWrites C blockHash blockNumber i txs)
    /\ In (TransactionReceiptsSet (tx_hash C tx) (tx_receipt tx))
         (transactionWrites C blockHash blockNumber i txs).
Proof.
  induction txs as [|tx0 rest IH]; intros i k tx Hk; [discriminate|].
  rewrite transactionWrites_cons.
  destruct k as [|k].
  - injection Hk as <-. rewrite Nat.add_0_r. split.
    + left. reflexivity.
    + right. left. reflexivity.
  - cbn in Hk. destruct (IH (S i) k tx Hk) as [Hset Hreceipt].
    rewrite Nat.add_succ_r. split; apply in_or_app; right; assumption.
Qed.

Lemma transactionWrites_length (blockHash blockNumber : Buffer)
    (txs : list Transaction) :
  forall i,
    length (transactionWrites C blockHash blockNumber i txs)
    = (2 * length txs)%nat.
Proof.
  induction txs as [|tx rest IH]; intros i; [reflexivity|].
  rewrite transactionWrites_cons, length_app, IH. cbn [length]. lia.
Qed.

Lemma transactionWrites_no_blockLogs (blockHash blockNumber : Buffer)
    (txs : list Transaction) :
  forall i,
    forallb (fun op => match op with BlockLogsSet _ _ => false | _ => true end)
      (transactionWrites C blockHash blockNumber i txs) = true.
Proof.
  induction txs as [|tx rest IH]; intros i; [reflexivity|].
  rewrite transactionWrites_cons. cbn [app forallb andb]. apply IH.
Qed.

(** The writes of one run of the listener. *)
Lemma onBlock_written
    (blockData : BlockData) (b : Blockchain W) (previousBlock : Block) :
  latest b = Some previousBlock ->
  written (since b (snd (onBlock C blockData b)))
  = transactionWrites C
      (header_hash C (header (builtBlock C blockData b previousBlock)))
      (number (header (builtBlock C blockData b previousBlock))) 0
      (blockTransactions blockData)
    ++ [BlockLogsSet (number (header (builtBlock C blockData b previousBlock)))
          (serialize C (builtLogs C (builtBlock C blockData b previousBlock)));
        BlocksPut (builtBlock C blockData b previousBlock)].
Proof.
  intros Hlatest.
  destruct (onBlock_log C blockData b previousBlock Hlatest) as [_ Hlog].
  rewrite (since_app _ _ _ Hlog).
  change (written (Batch ?ops :: ?l)) with (ops ++ written l).
  rewrite written_app.
  change (written [Emit ?x; Emit ?y]) with (@nil DbOp).
  destruct (instamine (options b) && legacyInstamine (options b)).
  - rewrite <- (map_map (fun tx => EvTransaction (tx_hash C tx)) Emit).
    rewrite written_emits by reflexivity. rewrite !app_nil_r. reflexivity.
  - rewrite !app_nil_r. reflexivity.
Qed.

(** X9.  With a latest block present, the one batch of a run of the
    ["block"] listener writes, in the order of the block's transactions,
    each transaction under its hash with the block's hash, the block's
    number and the transaction's position (from 0) appended to its fields,
    and its receipt under the same hash; then the block logs under the
    block number; then the block itself: two writes per transaction and
    two more, and nothing else. *)
Theorem onBlock_writes_each_transaction_at_its_position
    (blockData : BlockData) (b : Blockchain W) (previousBlock : Block) :
  latest b = Some previousBlock ->
  written (since b (snd (onBlock C blockData b)))
  = transactionWrites C
      (header_hash C (header (builtBlock C blockData b previousBlock)))
      (number (header (builtBlock C blockData b previousBlock))) 0
      (blockTransactions blockData)
    ++ [BlockLogsSet (number (header (builtBlock C blockData b previousBlock)))
          (serialize C (builtLogs C (builtBlock C blockData b previousBlock)));
        BlocksPut (builtBlock C blockData b previousBlock)]
  /\ length (written (since b (snd (onBlock C blockData b))))
     = (2 * length (blockTransactions blockData) + 2)%nat
  /\ forall (k : nat) (tx : Transaction),
       blockTransactions blockData !! k = Some tx ->
       In (TransactionsSet (tx_hash C tx)
             (rlpEncode C
                (raw tx
                 ++ [header_hash C
                       (header (builtBlock C blockData b previousBlock));
                     number (header (builtBlock C blockData b previousBlock));
                     toBuffer C (N.of_nat k)])))
          (written (since b (snd (onBlock C blockData b))))
       /\ In (TransactionReceiptsSet (tx_hash C tx) (tx_receipt tx))
            (written (since b (snd (onBlock C blockData b)))).
Proof.
  intros Hlatest.
  rewrite (onBlock_written blockData b previousBlock Hlatest).
  split; [reflexivity|]. split.
  - rewrite length_app, transactionWrites_length. cbn [length]. lia.
  - intros k tx Hk.
    destruct (transactionWrites_at
                (header_hash C (header (builtBlock C blockData b previousBlock)))
                (number (header (builtBlock C blockData b previousBlock)))
                (blockTransactions blockData) 0 k tx Hk) as [Hset Hreceipt].
    split; apply in_or_app; left; assumption.
Qed.

(** The events of one run of the listener. *)
Lemma onBlock_emitted
    (blockData : BlockData) (b : Blockchain W) (previousBlock : Block) :
  latest b = Some previousBlock ->
  emitted (since b (snd (onBlock C blockData b)))
  = (if instamine (options b) && legacyInstamine (options b)
     then map (fun tx => EvTransaction (tx_hash C tx))
            (blockTransactions blockData)
     else [])
    ++ [EvBlock (builtBlock C blockData b previousBlock);
        EvBlockLogs (builtLogs C (builtBlock C blockData b previousBlock))].
Proof.
  intros Hlatest.
  destruct (onBlock_log C blockData b previousBlock Hlatest) as [_ Hlog].
  rewrite (since_app _ _ _ Hlog).
  change (emitted (Batch ?ops :: ?l)) with (emitted l).
  rewrite emitted_app.
  change (emitted [Emit ?x; Emit ?y]) with [x; y].
  f_equal.
  destruct (instamine (options b) && legacyInstamine (options b));
    [|reflexivity].
  rewrite <- (map_map (fun tx => EvTransaction (tx_hash C tx)) Emit).
  apply emitted_emits.
Qed.

(** X10.  With a latest block present, a run of the ["block"] listener
    emits [block] and then [blockLogs], once each, and both after its
    writes; the block emitted is the new latest block, and the block logs
    hold one entry per log of each transaction, with the transaction's
    position and hash, in order.  In legacy instant mining
    [transaction:<hash>] is emitted before them for each transaction of
    the block, in block order; in every other mode no such event is
    emitted. *)
Theorem onBlock_emits_block_after_transactions
    (blockData : BlockData) (b : Blockchain W) (previousBlock : Block) :
  latest b = Some previousBlock ->
  latest (snd (onBlock C blockData b))
  = Some (builtBlock C blockData b previousBlock)
  /\ emitted (since b (snd (onBlock C blockData b)))
     = (if instamine (options b) && legacyInstamine (options b)
        then map (fun tx => EvTransaction (tx_hash C tx))
               (blockTransactions blockData)
        else [])
       ++ [EvBlock (builtBlock C blockData b previousBlock);
           EvBlockLogs
             (mkBlockLogs
                (header_hash C (header (builtBlock C blockData b previousBlock)))
                (Some (number (header (builtBlock C blockData b previousBlock))))
                (logEntries C 0 (blockTransactions blockData)))]
  /\ exists ops rest,
       since b (snd (onBlock C blockData b)) = Batch ops :: rest
       /\ written rest = [].
Proof.
  intros Hlatest.
  destruct (onBlock_log C blockData b previousBlock Hlatest) as [Hnew Hlog].
  rewrite (since_app _ _ _ Hlog).
  split; [exact Hnew|]. split.
  - rewrite <- (since_app _ _ _ Hlog).
    apply (onBlock_emitted blockData b previousBlock Hlatest).
  - eexists. eexists. split; [reflexivity|].
    rewrite written_app. cbn [written flat_map app].
    rewrite app_nil_r.
    destruct (instamine (options b) && legacyInstamine (options b));
      [|reflexivity].
    rewrite <- (map_map (fun tx => EvTransaction (tx_hash C tx)) Emit).
    apply written_emits. reflexivity.
Qed.

(** X11.  [mine()] hands the miner a block that is numbered and parented
    like the block the ["block"] listener then commits: same parent hash,
    same number and same gas limit.  Its timestamp is the one passed to
    [mine], or the clock when none is passed; [mine] itself changes
    neither the latest block nor the database. *)
Theorem mine_prepares_the_block_committed
    (now maxTransactions : Z) (ts : option Z) (blockData : BlockData)
    (b : Blockchain W) (previousBlock : Block) :
  latest b = Some previousBlock ->
  exists next block,
    mine C now maxTransactions ts b
    = (Return tt, record (MinerMine next maxTransactions) b)
    /\ latest (snd (onBlock C blockData (snd (mine C now maxTransactions ts b))))
       = Some block
    /\ parentHash (header next) = parentHash (header block)
    /\ number (header next) = number (header block)
    /\ gasLimit (header next) = gasLimit (header block)
    /\ timestamp (header next)
       = match ts with
         | Some t => t
         | None => now / 1000 + timeAdjustment b
         end
    /\ transactions next = [].
Proof.
  intros Hlatest.
  exists (readyNextBlock C now previousBlock ts b).
  exists (builtBlock C blockData (record
            (MinerMine (readyNextBlock C now previousBlock ts b) maxTransactions)
            b) previousBlock).
  assert (Hmine :
    mine C now maxTransactions ts b
    = (Return tt,
       record (MinerMine (readyNextBlock C now previousBlock ts b)
                 maxTransactions) b)).
  { unfold mine. rewrite Hlatest. reflexivity. }
  split; [exact Hmine|]. rewrite Hmine. cbn [snd].
  split.
  - apply (onBlock_log C blockData _ previousBlock). exact Hlatest.
  - repeat split.
Qed.

(** X12.  The ["block"] listener of the earlier class, called when its
    clock reads the timestamp the miner reports, commits the same block
    as the listener of the current class and makes it the latest block;
    it writes the same transaction and receipt records and the same block,
    in the same order, but no block logs, and it emits [block] only. *)
Theorem legacy_onBlock_commits_the_same_block
    (now : Z) (blockData : BlockData) (b : Blockchain W)
    (previousBlock : Block) :
  latest b = Some previousBlock ->
  bd_timestamp blockData = Legacy.currentTime now b ->
  latest (snd (Legacy.onBlock C now blockData b))
  = latest (snd (onBlock C blockData b))
  /\ written (since b (snd (Legacy.onBlock C now blockData b)))
     = List.filter
         (fun op => match op with BlockLogsSet _ _ => false | _ => true end)
         (written (since b (snd (onBlock C blockData b))))
  /\ emitted (since b (snd (Legacy.onBlock C now blockData b)))
     = [EvBlock (builtBlock C blockData b previousBlock)].
Proof.
  intros Hlatest Htime.
  destruct (onBlock_log C blockData b previousBlock Hlatest) as [Hnew _].
  rewrite Hnew, (onBlock_written blockData b previousBlock Hlatest).
  assert (Hlegacy :
    latest (snd (Legacy.onBlock C now blockData b))
    = Some (builtBlock C blockData b previousBlock)
    /\ log (snd (Legacy.onBlock C now blockData b))
       = log b
         ++ [Batch
               (transactionWrites C
                  (header_hash C
                     (header (builtBlock C blockData b previousBlock)))
                  (number (header (builtBlock C blockData b previousBlock)))
                  0 (blockTransactions blockData)
                ++ [BlocksPut (builtBlock C blockData b previousBlock)]);
             Emit (EvBlock (builtBlock C blockData b previousBlock))]).
  { unfold Legacy.onBlock. rewrite Hlatest. cbv zeta.
    rewrite legacy_forEachTransaction_all. rewrite <- Htime.
    cbn [fst snd createBlock header app].
    fold (header_number C (header previousBlock)).
    fold (builtBlock C blockData b previousBlock).
    unfold emit, record, set_world, set_latest. cbn [latest log].
    split; [reflexivity|]. rewrite <- app_assoc. reflexivity. }
  destruct Hlegacy as [Hlatest' Hlog'].
  rewrite (since_app _ _ _ Hlog').
  split; [exact Hlatest'|]. split; [|reflexivity].
  cbn [written flat_map]. rewrite app_nil_r.
  rewrite List.filter_app. cbn [List.filter]. f_equal.
  symmetry. apply forallb_filter_id. apply transactionWrites_no_blockLogs.
Qed.

End BlockFacts.

Lemma onBlock_writes_each_transaction_at_its_position_witness :
  latest Sample.startedChain = Some Sample.genesis
  /\ length (written (since Sample.startedChain
                        (snd (onBlock Reference.collaborators Sample.minedOne
                                Sample.startedChain)))) = 4%nat
  /\ In (TransactionReceiptsSet (Reference.tx_hash Sample.transfer) [Byte.x01])
       (written (since Sample.startedChain
                   (snd (onBlock Reference.collaborators Sample.minedOne
                           Sample.startedChain)))).
Proof.
  split; [reflexivity|].
  destruct (onBlock_writes_each_transaction_at_its_position
              Reference.collaborators Sample.minedOne Sample.startedChain
              Sample.genesis eq_refl)
    as (_ & Hlength & Hat).
  split; [exact Hlength|].
  exact (proj2 (Hat 0%nat Sample.transfer eq_refl)).
Defined.

Lemma onBlock_emits_block_after_transactions_witness :
  latest Sample.legacyChain = Some Sample.genesis
  /\ exists block logs,
       emitted (since Sample.legacyChain
                  (snd (onBlock Reference.collaborators Sample.minedOne
                          Sample.legacyChain)))
       = [EvTransaction (Reference.tx_hash Sample.transfer);
          EvBlock block; EvBlockLogs logs]
       /\ latest (snd (onBlock Reference.collaborators Sample.minedOne
                         Sample.legacyChain)) = Some block.
Proof.
  split; [reflexivity|].
  destruct (onBlock_emits_block_after_transactions Reference.collaborators
              Sample.minedOne Sample.legacyChain Sample.genesis eq_refl)
    as (Hlatest & Hemitted & _).
  eexists. eexists. split; [exact Hemitted | exact Hlatest].
Defined.

Lemma mine_prepares_the_block_committed_witness :
  latest Sample.startedChain = Some Sample.genesis
  /\ exists next,
       log (snd (mine Reference.collaborators 1577836805000 1 None
                   Sample.startedChain)) = [MinerMine next 1]
       /\ number (header next) = [Byte.x01]
       /\ timestamp (header next) = 1577836805.
Proof.
  split; [reflexivity|].
  destruct (mine_prepares_the_block_committed Reference.collaborators
              1577836805000 1 None Sample.minedOne Sample.startedChain
              Sample.genesis eq_refl)
    as (next & block & Hmine & Hlatest & _ & Hnumber & _ & Htimestamp & _).
  exists next. rewrite Hmine. split; [reflexivity|].
  split; [|exact Htimestamp].
  rewrite Hnumber.
  assert (Hblock : Some block
                   = Some (builtBlock Reference.collaborators Sample.minedOne
                             Sample.startedChain Sample.genesis)).
  { rewrite <- Hlatest, Hmine. reflexivity. }
  injection Hblock as ->. reflexivity.
Defined.

Lemma legacy_onBlock_commits_the_same_block_witness :
  latest Sample.startedChain = Some Sample.genesis
  /\ bd_timestamp Sample.minedOne
     = Legacy.currentTime 1577836801000 Sample.startedChain
  /\ latest (snd (Legacy.onBlock Reference.collaborators 1577836801000
                    Sample.minedOne Sample.startedChain))
     = latest (snd (onBlock Reference.collaborators Sample.minedOne
                      Sample.startedChain)).
Proof.
  split; [reflexivity|]. split; [reflexivity|].
  exact (proj1 (legacy_onBlock_commits_the_same_block Reference.collaborators
                  1577836801000 Sample.minedOne Sample.startedChain
                  Sample.genesis eq_refl eq_refl)).
Defined.

(** ** Queued transactions and the miner's events *)

Section QueueAndMiner.
Context {W : Type} (C : Collaborators W).

Lemma equals_true (a b : Buffer) : equals a b = true -> a = b.
Proof. unfold equals. apply bool_decide_eq_true_1. Qed.

Lemma equals_false (a b : Buffer) : equals a b = false -> a <> b.
Proof. unfold equals. apply bool_decide_eq_false_1. Qed.

(** Among the completion events of a block's transactions, the first for
    the hash settles the race. *)
Lemma race_block_with (hash : Buffer) (txs : list Transaction)
    (rest : list Event) :
  In hash (map (tx_hash C) txs) ->
  race hash (map (fun tx => EvTransaction (tx_hash C tx)) txs ++ rest)
  = Some None.
Proof.
  induction txs as [|tx more IH]; intros Hin; [contradiction|].
  cbn [map app race].
  destruct (equals (tx_hash C tx) hash) eqn:Heq; [reflexivity|].
  apply IH. destruct Hin as [Hhere|Hlater]; [|exact Hlater].
  apply equals_false in Heq. contradiction.
Qed.

Lemma race_block_without (hash : Buffer) (txs : list Transaction)
    (rest : list Event) :
  ~ In hash (map (tx_hash C) txs) ->
  race hash (map (fun tx => EvTransaction (tx_hash C tx)) txs ++ rest)
  = race hash rest.
Proof.
  induction txs as [|tx more IH]; intros Hout; [reflexivity|].
  cbn [map app race].
  destruct (equals (tx_hash C tx) hash) eqn:Heq.
  - apply equals_true in Heq. exfalso. apply Hout. left. exact Heq.
  - apply IH. intros Hin. apply Hout. right. exact Hin.
Qed.

(** X13.  In legacy instant mining on a chain that is not paused and has a
    latest block, a call of [queueTransaction] whose push resolved
    follows the miner: when the ["block"] listener next runs on a block
    that holds the transaction, the call returns the hash; when it runs on
    a block that does not hold a transaction of that hash, the call is
    still waiting; and when the ["transaction-failure"] listener runs for
    the hash, the call throws the miner's error, with the hash as its
    [result] if [vmErrorsOnRPCResponse] is set. *)
Theorem queued_transaction_follows_the_miner
    (accepted : bool) (transaction : Transaction) (blockData : BlockData)
    (err : JsError) (b : Blockchain W) (previousBlock : Block) :
  isPaused b = false ->
  instamine (options b) = true ->
  legacyInstamine (options b) = true ->
  latest b = Some previousBlock ->
  (In transaction (blockTransactions blockData) ->
   queueTransaction_settled C (PushResolves accepted transaction)
     (emitted
        (since (snd (queueTransaction C (PushResolves accepted transaction) b))
           (snd (onBlock C blockData
                   (snd (queueTransaction C
                           (PushResolves accepted transaction) b))))))
     b
   = Some (Return (tx_hash C transaction)))
  /\ (~ In (tx_hash C transaction)
          (map (tx_hash C) (blockTransactions blockData)) ->
      queueTransaction_settled C (PushResolves accepted transaction)
        (emitted
           (since (snd (queueTransaction C (PushResolves accepted transaction) b))
              (snd (onBlock C blockData
                      (snd (queueTransaction C
                              (PushResolves accepted transaction) b))))))
        b
      = None)
  /\ queueTransaction_settled C (PushResolves accepted transaction)
       (emitted
          (since (snd (queueTransaction C (PushResolves accepted transaction) b))
             (onTransactionFailure (tx_hash C transaction) err
                (snd (queueTransaction C
                        (PushResolves accepted transaction) b)))))
       b
     = Some (Throw
               (if vmErrorsOnRPCResponse (options b)
                then mkJsError (message err) (Some (tx_hash C transaction))
                else err)).
Proof.
  intros Hp Hi Hl Hlatest.
  set (queued := if accepted then emit (EvPendingTransaction transaction) b
                 else b).
  assert (Hrun :
    queueTransaction C (PushResolves accepted transaction) b
    = (Racing (tx_hash C transaction), queued)).
  { unfold queueTransaction. cbv zeta. fold queued.
    replace (isPaused queued) with (isPaused b)
      by (unfold queued; destruct accepted; reflexivity).
    replace (options queued) with (options b)
      by (unfold queued; destruct accepted; reflexivity).
    rewrite Hp, Hi, Hl. reflexivity. }
  assert (Hqlatest : latest queued = Some previousBlock)
    by (unfold queued; destruct accepted; exact Hlatest).
  assert (Hqoptions : options queued = options b)
    by (unfold queued; destruct accepted; reflexivity).
  pose proof (onBlock_emitted C blockData queued previousBlock Hqlatest)
    as Hemitted.
  rewrite Hqoptions, Hi, Hl in Hemitted. cbn [andb] in Hemitted.
  unfold queueTransaction_settled. rewrite Hrun. cbn [fst snd].
  rewrite Hemitted.
  split; [|split].
  - intros Hin. rewrite race_block_with; [reflexivity|].
    apply in_map. exact Hin.
  - intros Hout. rewrite race_block_without by exact Hout. reflexivity.
  - unfold onTransactionFailure.
    rewrite (since_app queued (emit _ queued)
               [Emit (EvTransactionFailure (tx_hash C transaction) err)])
      by reflexivity.
    cbn [emitted flat_map app race]. rewrite equals_same.
    unfold queueTransaction_raced. rewrite Hqoptions. reflexivity.
Qed.

End QueueAndMiner.

Lemma queued_transaction_follows_the_miner_witness :
  isPaused Sample.legacyChain = false
  /\ latest Sample.legacyChain = Some Sample.genesis
  /\ queueTransaction_settled Reference.collaborators
       (PushResolves true Sample.transfer)
       (emitted
          (since
             (snd (queueTransaction Reference.collaborators
                     (PushResolves true Sample.transfer) Sample.legacyChain))
             (snd (onBlock Reference.collaborators Sample.minedOne
                     (snd (queueTransaction Reference.collaborators
                             (PushResolves true Sample.transfer)
                             Sample.legacyChain))))))
       Sample.legacyChain
     = Some (Return (Reference.tx_hash Sample.transfer)).
Proof.
  split; [reflexivity|]. split; [reflexivity|].
  destruct (queued_transaction_follows_the_miner Reference.collaborators true
              Sample.transfer Sample.minedOne (Error "revert")
              Sample.legacyChain Sample.genesis eq_refl eq_refl eq_refl eq_refl)
    as (Hmined & _ & _).
  apply Hmined. left. reflexivity.
Defined.

(** ** More on snapshots and revert *)

Section SnapshotsAgain.
Context {W : Type} (C : Collaborators W).

Lemma snapshot_result (b : Blockchain W) (latestBlock : Block) :
  latest b = Some latestBlock ->
  snapshot C b
  = (Return (Z.of_nat (length (snapshots b)) + 1),
     set_snapshots
       (snapshots b
        ++ [mkSnapshot (header_hash C (header latestBlock))
              (stateRoot (header latestBlock)) (timeAdjustment b)])
       b).
Proof.
  intros Hlatest. unfold snapshot. rewrite Hlatest.
  rewrite length_app. cbn [length]. do 3 f_equal. lia.
Qed.

Lemma revert_absent_ordinal (fuel : nat) (m : Z) (b : Blockchain W) :
  0 <= m - 1 ->
  snapshots b !! Z.to_nat (m - 1) = None ->
  revert C fuel (mkQuantity (RawBigInt m)) b = Some (Return false, b).
Proof.
  intros Hm Habsent. unfold revert. cbn [valueOf].
  destruct (Z.ltb_spec (m - 1) 0); [lia|].
  apply lookup_ge_None in Habsent.
  rewrite (skipn_all2 (snapshots b)) by lia.
  rewrite (firstn_all2 (snapshots b)) by lia.
  rewrite set_snapshots_same. reflexivity.
Qed.

(** Snapshots taken in a row only add to the stack, each of the latest
    block. *)
Lemma snapshotTimes_adds (k : nat) (b : Blockchain W) (latestBlock : Block) :
  latest b = Some latestBlock ->
  exists more,
    snapshotTimes C k b = set_snapshots (snapshots b ++ more) b
    /\ length more = k.
Proof.
  intros Hlatest. induction k as [|k IH].
  - exists []. rewrite app_nil_r, set_snapshots_same. split; reflexivity.
  - destruct IH as (more & Hmore & Hlen).
    change (snapshotTimes C (S k) b)
      with (snd (snapshot C (snapshotTimes C k b))).
    rewrite Hmore. unfold snapshot. cbn [latest set_snapshots].
    rewrite Hlatest. cbn [snd snapshots set_snapshots timeAdjustment].
    eexists. rewrite <- app_assoc. split; [reflexivity|].
    rewrite length_app, Hlen. cbn [length]. lia.
Qed.

(** X14.  [snapshot()] followed by [revert] to the ordinal it returned,
    with no block added in between, gives back the fields exactly as
    they were before the snapshot, whatever number of further snapshots
    was taken in between: those are dropped with it. *)
Theorem snapshot_then_revert_is_identity
    (fuel k : nat) (b : Blockchain W) (latestBlock : Block) :
  latest b = Some latestBlock ->
  fst (snapshot C b) = Return (Z.of_nat (length (snapshots b)) + 1)
  /\ revert C fuel
       (mkQuantity (RawBigInt (Z.of_nat (length (snapshots b)) + 1)))
       (snapshotTimes C k (snd (snapshot C b)))
     = Some (Return true, b).
Proof.
  intros Hlatest.
  rewrite (snapshot_result b latestBlock Hlatest). cbn [fst snd].
  split; [reflexivity|].
  set (pushed := mkSnapshot (header_hash C (header latestBlock))
                   (stateRoot (header latestBlock)) (timeAdjustment b)).
  destruct (snapshotTimes_adds k
              (set_snapshots (snapshots b ++ [pushed]) b) latestBlock
              Hlatest) as (more & Hmore & _).
  rewrite Hmore. cbn [snapshots set_snapshots].
  rewrite (revert_at_snapshot_block C fuel _ _ pushed latestBlock).
  - cbn [snapshots set_snapshots].
    replace (Z.to_nat (Z.of_nat (length (snapshots b)) + 1 - 1))
      with (length (snapshots b)) by lia.
    rewrite <- app_assoc.
    change firstn with (@take Snapshot). rewrite take_app_length.
    change (set_snapshots ?v (set_snapshots _ (set_snapshots _ b)))
      with (set_snapshots v b).
    rewrite set_snapshots_same. reflexivity.
  - lia.
  - cbn [snapshots set_snapshots].
    replace (Z.to_nat (Z.of_nat (length (snapshots b)) + 1 - 1))
      with (length (snapshots b)) by lia.
    rewrite <- app_assoc. apply list_lookup_middle. reflexivity.
  - exact Hlatest.
  - reflexivity.
Qed.

(** The walk back changes the database and the log only. *)
Lemma revert_walk_fields (fuel : nat) (snapshotHash : Buffer) :
  forall (nextBlock : Block) (b walked : Blockchain W),
    revert_walk C fuel snapshotHash nextBlock b = Some walked ->
    snapshots walked = snapshots b
    /\ state walked = state b
    /\ latest walked = latest b
    /\ timeAdjustment walked = timeAdjustment b.
Proof.
  induction fuel as [|fuel IH]; intros nextBlock b walked Hwalk;
    [discriminate|].
  cbn [revert_walk] in Hwalk.
  destruct (equals (parentHash (header nextBlock)) snapshotHash).
  - injection Hwalk as <-. repeat split.
  - destruct (blocks_get C (number (header nextBlock))
                (world (deleteBlockData C nextBlock b))) as [next|].
    + destruct (IH _ _ _ Hwalk) as (Hs & Hst & Hl & Ht).
      rewrite Hs, Hst, Hl, Ht. repeat split.
    + injection Hwalk as <-. repeat split.
Qed.

(** X15.  However [revert(n)] ends for an ordinal [n] of at least 1 (with
    [true], with [false] or with an error), the snapshot stack is left cut
    to its first [n - 1] entries and the lifecycle state is untouched; so
    the snapshot [n] and every later one can be reverted to once only: any
    later [revert] to an ordinal from [n] on returns [false] and changes
    nothing. *)
Theorem revert_uses_up_the_snapshot
    (fuel : nat) (n : Z) (b after : Blockchain W) (outcome : Completion bool) :
  0 <= n - 1 ->
  revert C fuel (mkQuantity (RawBigInt n)) b = Some (outcome, after) ->
  snapshots after = firstn (Z.to_nat (n - 1)) (snapshots b)
  /\ state after = state b
  /\ forall (fuel' : nat) (m : Z),
       n <= m ->
       revert C fuel' (mkQuantity (RawBigInt m)) after
       = Some (Return false, after).
Proof.
  intros Hn Hrevert.
  assert (Hcut : snapshots after = firstn (Z.to_nat (n - 1)) (snapshots b)
                 /\ state after = state b).
  { unfold revert in Hrevert. cbn [valueOf] in Hrevert.
    destruct (Z.ltb_spec (n - 1) 0); [lia|].
    destruct (skipn (Z.to_nat (n - 1)) (snapshots b)) as [|snapshot later].
    { injection Hrevert as _ <-. split; reflexivity. }
    cbn [latest set_snapshots] in Hrevert.
    destruct (latest b) as [currentBlock|].
    2:{ injection Hrevert as _ <-. split; reflexivity. }
    destruct (equals _ _).
    { injection Hrevert as _ <-. split; reflexivity. }
    destruct (revert_walk C fuel (snap_hash snapshot) currentBlock _)
      as [walked|] eqn:Hwalk; [|discriminate].
    destruct (revert_walk_fields _ _ _ _ _ Hwalk) as (Hs & Hst & _ & _).
    destruct (setStateRoot C (snap_stateRoot snapshot) _) as [w|e];
      injection Hrevert as _ <-;
      cbn [snapshots state set_timeAdjustment set_latest];
      rewrite Hs, Hst; split; reflexivity. }
  destruct Hcut as [Hcut Hstate].
  split; [exact Hcut|]. split; [exact Hstate|].
  intros fuel' m Hm.
  apply revert_absent_ordinal; [lia|].
  apply lookup_ge_None. rewrite Hcut, length_firstn. lia.
Qed.

End SnapshotsAgain.

Lemma snapshot_then_revert_is_identity_witness :
  latest Sample.startedChain = Some Sample.genesis
  /\ length (snapshots (snapshotTimes Reference.collaborators 2
                          (snd (snapshot Reference.collaborators
                                  Sample.startedChain)))) = 3%nat
  /\ revert Reference.collaborators 1 (mkQuantity (RawBigInt 1))
       (snapshotTimes Reference.collaborators 2
          (snd (snapshot Reference.collaborators Sample.startedChain)))
     = Some (Return true, Sample.startedChain).
Proof.
  split; [reflexivity|]. split; [reflexivity|].
  exact (proj2 (snapshot_then_revert_is_identity Reference.collaborators 1 2
                  Sample.startedChain Sample.genesis eq_refl)).
Defined.

Lemma revert_uses_up_the_snapshot_witness :
  match revert Reference.collaborators 1 (mkQuantity (RawBigInt 1))
          Sample.minedChain with
  | Some (outcome, after) =>
      snapshots Sample.minedChain <> []
      /\ snapshots after = []
      /\ revert Reference.collaborators 1 (mkQuantity (RawBigInt 1)) after
         = Some (Return false, after)
  | None => False
  end.
Proof.
  destruct (revert Reference.collaborators 1 (mkQuantity (RawBigInt 1))
              Sample.minedChain) as [[outcome after]|] eqn:Hrevert.
  - destruct (revert_uses_up_the_snapshot Reference.collaborators 1 1
                Sample.minedChain after outcome ltac:(lia) Hrevert)
      as (Hcut & _ & Hagain).
    split; [discriminate|]. split; [exact Hcut|].
    apply Hagain. lia.
  - vm_compute in Hrevert. discriminate.
Defined.

(** ** The earlier class beside the current one *)

Section LegacyMining.
Context {W : Type} (C : Collaborators W).

(** X16.  The ["drain"] listener of the earlier class beside the one of
    the current class, on a chain with a latest block.  While the chain
    is not paused and the event carries neither a timestamp nor a
    [maxTransactions], both hand the miner the same block with a limit of
    one transaction.  A timestamp of 0 is read by the earlier class as no
    timestamp: the block gets the time of the clock.  While the chain is
    paused, the earlier class returns at once and keeps nothing, so a
    later [resume()] mines nothing, where the current class keeps a
    promise and mines on [resume()]. *)
Theorem legacy_onDrain_beside_current
    (now resumedAt : Z) (b : Blockchain W) (latestBlock : Block) :
  latest b = Some latestBlock ->
  resumeOnce b = [] ->
  waitingOnResume b = None ->
  (isPaused b = false ->
   snd (Legacy.onDrain C now None None b) = snd (onDrain C now b)
   /\ fst (Legacy.onDrain C now None None b) = Some (Return tt)
   /\ mined (log (snd (Legacy.onDrain C now None None b)))
      = mined (log b) ++ [1]
   /\ snd (Legacy.onDrain C now (Some 0) None b)
      = snd (Legacy.onDrain C now None None b))
  /\ (isPaused b = true ->
      Legacy.onDrain C now None None b = (None, b)
      /\ mined (log (resume C resumedAt
                       (snd (Legacy.onDrain C now None None b))))
         = mined (log b)
      /\ mined (log (resume C resumedAt (snd (onDrain C now b))))
         = mined (log b) ++ [-1]).
Proof.
  intros Hlatest Hnone Hwaiting. split.
  - intros Hp.
    unfold Legacy.onDrain, onDrain, mine, Legacy.readyNextBlock,
      readyNextBlock.
    rewrite Hp, Hlatest. cbn [negb andb orb fst snd bool_decide].
    rewrite andb_false_r.
    split; [reflexivity|]. split; [reflexivity|].
    split; [|reflexivity].
    unfold record. cbn [snd log]. rewrite mined_app. reflexivity.
  - intros Hp.
    assert (Hlegacy : Legacy.onDrain C now None None b = (None, b)).
    { unfold Legacy.onDrain. rewrite Hp. reflexivity. }
    split; [exact Hlegacy|]. rewrite Hlegacy. cbn [snd].
    assert (Hresume :
      forall b0 : Blockchain W,
        isPaused b0 = true ->
        latest b0 = Some latestBlock ->
        mined (log (resume C resumedAt b0))
        = mined (log b0) ++ repeat (-1) (length (resumeOnce b0))).
    { intros b0 Hp0 Hl0. unfold resume. rewrite Hp0. cbn [negb].
      unfold emit_resume. cbv zeta.
      change (resumeOnce (emit EvResume (set_state _ b0)))
        with (resumeOnce b0).
      assert (Hfold :
        forall (waiting : list nat) (b1 : Blockchain W),
          latest b1 = Some latestBlock ->
          mined (log (fold_left (fun acc (_ : nat) => onResumed C resumedAt acc)
                        waiting b1))
          = mined (log b1) ++ repeat (-1) (length waiting)).
      { induction waiting as [|p rest IH]; intros b1 Hl1.
        - cbn. rewrite app_nil_r. reflexivity.
        - cbn [fold_left length repeat]. rewrite IH.
          + unfold onResumed, mine. cbn [latest set_waitingOnResume].
            rewrite Hl1. cbn [snd]. unfold record. cbn [log].
            rewrite mined_app, <- app_assoc. reflexivity.
          + destruct (onResumed_fields C resumedAt b1) as (_ & Hl & _).
            rewrite Hl. exact Hl1. }
      rewrite Hfold by exact Hl0.
      unfold emit, record. cbn [log set_resumeOnce set_state].
      rewrite mined_app. cbn [mined flat_map app]. rewrite app_nil_r.
      reflexivity. }
    split.
    + rewrite (Hresume b Hp Hlatest), Hnone. cbn. apply app_nil_r.
    + unfold onDrain. rewrite Hp, Hwaiting. cbn [snd].
      rewrite Hresume by (try exact Hp; exact Hlatest).
      cbn [log resumeOnce set_waitingOnResume set_resumeOnce set_promisesMade].
      rewrite Hnone. reflexivity.
Qed.

(** X17.  [queueTransaction] of the earlier class beside the one of the
    current class: whenever the current class is not in legacy instant
    mining, both settle alike for every outcome of the push: they throw
    the pool's error or return the hash read after the push, without
    waiting.  The earlier class emits nothing; the current one emits
    [pendingTransaction] when the pool accepted. *)
Theorem legacy_queueTransaction_beside_current
    (push : PushOutcome) (events : list Event) (b : Blockchain W) :
  legacyInstamine (options b) = false ->
  queueTransaction_settled C push events b
  = Some (fst (Legacy.queueTransaction C push b))
  /\ snd (Legacy.queueTransaction C push b) = b
  /\ emitted (since b (snd (queueTransaction C push b)))
     = match push with
       | PushResolves true transaction => [EvPendingTransaction transaction]
       | _ => []
       end.
Proof.
  intros Hl. destruct push as [e|accepted transaction].
  - split; [reflexivity|]. split; [reflexivity|].
    cbn [queueTransaction snd].
    rewrite (since_app b b []) by (rewrite app_nil_r; reflexivity).
    reflexivity.
  - split; [|split; [reflexivity|]].
    + cbn [Legacy.queueTransaction fst].
      apply queueTransaction_instamine_returns. exact Hl.
    + rewrite (since_app b _ _ (queueTransaction_log C accepted transaction b)).
      destruct accepted; reflexivity.
Qed.

End LegacyMining.

Lemma legacy_onDrain_beside_current_witness :
  latest Sample.startedChain = Some Sample.genesis
  /\ snd (Legacy.onDrain Reference.collaborators 1577836805000 None None
            Sample.startedChain)
     = snd (onDrain Reference.collaborators 1577836805000 Sample.startedChain)
  /\ mined (log (resume Reference.collaborators 1577836809000
                   (snd (Legacy.onDrain Reference.collaborators 1577836805000
                           None None (pause Sample.startedChain)))))
     = [].
Proof.
  split; [reflexivity|].
  destruct (legacy_onDrain_beside_current Reference.collaborators
              1577836805000 1577836809000 Sample.startedChain Sample.genesis
              eq_refl eq_refl eq_refl)
    as [Hrunning _].
  split; [exact (proj1 (Hrunning eq_refl))|].
  destruct (legacy_onDrain_beside_current Reference.collaborators
              1577836805000 1577836809000 (pause Sample.startedChain)
              Sample.genesis eq_refl eq_refl eq_refl)
    as [_ Hpaused].
  exact (proj1 (proj2 (Hpaused eq_refl))).
Defined.

Lemma legacy_queueTransaction_beside_current_witness :
  legacyInstamine (options Sample.startedChain) = false
  /\ queueTransaction_settled Reference.collaborators
       (PushResolves true Sample.transfer) [] Sample.startedChain
     = Some (fst (Legacy.queueTransaction Reference.collaborators
                    (PushResolves true Sample.transfer) Sample.startedChain)).
Proof.
  split; [reflexivity|].
  exact (proj1 (legacy_queueTransaction_beside_current Reference.collaborators
                  (PushResolves true Sample.transfer) [] Sample.startedChain
                  eq_refl)).
Defined.

(** ** Mining on an interval *)

Section IntervalMining.
Context {W : Type} (C : Collaborators W).

Lemma takeDue_length (now : Z) (pending : list Z) :
  forall rest, takeDue now pending = Some rest -> length pending = S (length rest).
Proof.
  induction pending as [|due more IH]; intros rest Htake; [discriminate|].
  cbn [takeDue] in Htake. destruct (due <=? now).
  - injection Htake as <-. reflexivity.
  - destruct (takeDue now more) as [rest'|]; [|discriminate].
    injection Htake as <-. cbn [length]. rewrite (IH rest' eq_refl).
    reflexivity.
Qed.

Lemma repeat_snoc {A : Type} (x : A) (n : nat) :
  repeat x n ++ [x] = repeat x (S n).
Proof.
  induction n as [|n IH]; [reflexivity|].
  cbn [repeat app]. rewrite IH. reflexivity.
Qed.

(** With a latest block, [this.mine(-1)] resolves and the timeout is
    set. *)
Lemma mineThenSetTimeout_fields (now : Z) (s : Blockchain W * IntervalLoop)
    (latestBlock : Block) :
  latest (fst s) = Some latestBlock ->
  latest (fst (mineThenSetTimeout C now s)) = Some latestBlock
  /\ resumeOnce (fst (mineThenSetTimeout C now s)) = resumeOnce (fst s)
  /\ state (fst (mineThenSetTimeout C now s)) = state (fst s)
  /\ length (timers (snd (mineThenSetTimeout C now s)))
     = S (length (timers (snd s)))
  /\ suspended (snd (mineThenSetTimeout C now s)) = suspended (snd s)
  /\ mined (log (fst (mineThenSetTimeout C now s)))
     = mined (log (fst s)) ++ [-1].
Proof.
  intros Hlatest. unfold mineThenSetTimeout, mine. rewrite Hlatest.
  cbn [fst snd timers suspended]. unfold record.
  cbn [latest resumeOnce state log].
  split; [exact Hlatest|]. repeat (split; [reflexivity|]).
  split; [rewrite length_app; cbn [length]; lia|].
  split; [reflexivity|]. rewrite mined_app. reflexivity.
Qed.

Lemma mineThenSetTimeout_times (now : Z) (n : nat)
    (s : Blockchain W * IntervalLoop) (latestBlock : Block) :
  latest (fst s) = Some latestBlock ->
  latest (fst (Nat.iter n (mineThenSetTimeout C now) s)) = Some latestBlock
  /\ resumeOnce (fst (Nat.iter n (mineThenSetTimeout C now) s))
     = resumeOnce (fst s)
  /\ state (fst (Nat.iter n (mineThenSetTimeout C now) s)) = state (fst s)
  /\ length (timers (snd (Nat.iter n (mineThenSetTimeout C now) s)))
     = (length (timers (snd s)) + n)%nat
  /\ suspended (snd (Nat.iter n (mineThenSetTimeout C now) s))
     = suspended (snd s)
  /\ mined (log (fst (Nat.iter n (mineThenSetTimeout C now) s)))
     = mined (log (fst s)) ++ repeat (-1) n.
Proof.
  intros Hlatest. induction n as [|n IH].
  - cbn. rewrite app_nil_r, Nat.add_0_r. repeat split. exact Hlatest.
  - destruct IH as (Hl & Hr & Hs & Ht & Hu & Hm).
    rewrite !Nat.iter_succ.
    destruct (mineThenSetTimeout_fields now _ latestBlock Hl)
      as (Hl' & Hr' & Hs' & Ht' & Hu' & Hm').
    rewrite Hl', Hr', Hs', Ht', Hu', Hm', Hr, Hs, Ht, Hu, Hm.
    rewrite <- app_assoc, repeat_snoc.
    repeat split. lia.
Qed.

(** [resume()] on a paused chain on which no drain promise is pending. *)
Lemma resume_paused_chain (now : Z) (b : Blockchain W) :
  isPaused b = true ->
  resumeOnce b = [] ->
  isPaused (resume C now b) = false
  /\ latest (resume C now b) = latest b
  /\ resumeOnce (resume C now b) = []
  /\ mined (log (resume C now b)) = mined (log b).
Proof.
  intros Hp Hnone. unfold resume. rewrite Hp. cbn [negb].
  unfold emit_resume. cbv zeta.
  change (resumeOnce (emit EvResume (set_state _ b))) with (resumeOnce b).
  rewrite Hnone. cbn [fold_left].
  split.
  - unfold isPaused.
    change (state (set_resumeOnce _ (emit _ (set_state ?v b)))) with v.
    rewrite paused_bit_toggled; [reflexivity|].
    unfold isPaused in Hp. intros Hz. rewrite Hz in Hp. discriminate.
  - split; [reflexivity|]. split; [reflexivity|].
    unfold emit, record. cbn [log set_resumeOnce set_state].
    rewrite mined_app. cbn. apply app_nil_r.
Qed.

(** One event keeps what the loop relies on. *)
Lemma loopStep_keeps (b0 : Blockchain W) (latestBlock : Block)
    (e : LoopEvent) (s : Blockchain W * IntervalLoop) (fired k : nat) :
  latest (fst s) = Some latestBlock ->
  resumeOnce (fst s) = [] ->
  (length (timers (snd s)) + suspended (snd s) = 1)%nat ->
  (suspended (snd s) <> 0%nat -> isPaused (fst s) = true) ->
  mined (log (fst s)) = mined (log b0) ++ repeat (-1) k ->
  (k + suspended (snd s) <= fired)%nat ->
  latest (fst (loopStep C s e)) = Some latestBlock
  /\ resumeOnce (fst (loopStep C s e)) = []
  /\ (length (timers (snd (loopStep C s e)))
      + suspended (snd (loopStep C s e)) = 1)%nat
  /\ (suspended (snd (loopStep C s e)) <> 0%nat ->
      isPaused (fst (loopStep C s e)) = true)
  /\ exists k',
       mined (log (fst (loopStep C s e))) = mined (log b0) ++ repeat (-1) k'
       /\ (k' + suspended (snd (loopStep C s e))
           <= fired + timerEvents [e])%nat.
Proof.
  intros Hlatest Hnone Hone Hpaused Hmined Hbound.
  destruct s as [b loop]. cbn [fst snd] in *.
  destruct e as [now| |now]; cbn [loopStep fst snd timerEvents List.filter length].
  - (* the timer fires *)
    unfold onTimeout. cbn [fst snd].
    destruct (takeDue now (timers loop)) as [rest|] eqn:Htake.
    + pose proof (takeDue_length _ _ _ Htake) as Hlen.
      unfold intervalMine. cbn [fst snd timers suspended].
      destruct (isPaused b) eqn:Hp.
      * cbn [fst snd timers suspended].
        split; [exact Hlatest|]. split; [exact Hnone|].
        split; [lia|]. split; [intros _; exact Hp|].
        exists k. split; [exact Hmined | lia].
      * assert (Hzero : suspended loop = 0%nat).
        { destruct (suspended loop) as [|n]; [reflexivity|].
          discriminate Hpaused. discriminate. }
        destruct (mineThenSetTimeout_fields now
                    (b, mkIntervalLoop rest (suspended loop)) latestBlock
                    Hlatest) as (Hl' & Hr' & _ & Ht' & Hu' & Hm').
        cbn [fst snd timers suspended] in Hr', Ht', Hu', Hm'.
        rewrite Hl', Hr', Ht', Hu', Hm', Hmined, Hzero.
        split; [reflexivity|]. split; [exact Hnone|].
        split; [lia|]. split; [intros Hne; contradiction|].
        exists (S k). rewrite <- app_assoc, repeat_snoc.
        split; [reflexivity | lia].
    + cbn [fst snd].
      split; [exact Hlatest|]. split; [exact Hnone|].
      split; [exact Hone|]. split; [exact Hpaused|].
      exists k. split; [exact Hmined | lia].
  - (* pause() *)
    split; [exact Hlatest|]. split; [exact Hnone|].
    split; [exact Hone|].
    split.
    + intros _. unfold isPaused, pause, emit, record. cbn [state set_state].
      apply negb_true_iff. apply Z.eqb_neq. apply paused_bit_after_lor.
    + exists k. split; [|lia].
      unfold pause, emit, record. cbn [log set_state].
      rewrite mined_app, Hmined. cbn. apply app_nil_r.
  - (* resume() *)
    unfold intervalResume. cbn [fst snd].
    destruct (isPaused b) eqn:Hp.
    + destruct (resume_paused_chain now b Hp Hnone) as (Hp' & Hl' & Hr' & Hm').
      assert (Hlatest' : latest (fst (resume C now b,
                                      mkIntervalLoop (timers loop) 0))
                         = Some latestBlock)
        by (cbn [fst]; rewrite Hl'; exact Hlatest).
      destruct (mineThenSetTimeout_times now (suspended loop)
                  (resume C now b, mkIntervalLoop (timers loop) 0)
                  latestBlock Hlatest')
        as (Hl2 & Hr2 & _ & Ht2 & Hu2 & Hm2).
      cbn [fst snd timers suspended] in Hr2, Ht2, Hu2, Hm2.
      rewrite Hl2, Hr2, Ht2, Hu2, Hm2, Hr', Hm', Hmined.
      split; [reflexivity|]. split; [reflexivity|].
      split; [lia|]. split; [intros Hne; contradiction|].
      exists (k + suspended loop)%nat.
      rewrite <- app_assoc, <- repeat_app. split; [reflexivity | lia].
    + cbn [fst snd]. unfold resume. rewrite Hp. cbn [negb].
      unfold record. cbn [latest resumeOnce log].
      split; [exact Hlatest|]. split; [exact Hnone|].
      split; [exact Hone|].
      split.
      * intros Hne. specialize (Hpaused Hne). discriminate.
      * exists k. split; [|lia].
        rewrite mined_app, Hmined. cbn. apply app_nil_r.
Qed.

Lemma timerEvents_cons (e : LoopEvent) (events : list LoopEvent) :
  timerEvents (e :: events) = (timerEvents [e] + timerEvents events)%nat.
Proof.
  unfold timerEvents. cbn [List.filter].
  destruct e; cbn [length]; reflexivity.
Qed.

Lemma loopRun_keeps (b0 : Blockchain W) (latestBlock : Block)
    (events : list LoopEvent) :
  forall (s : Blockchain W * IntervalLoop) (fired k : nat),
    latest (fst s) = Some latestBlock ->
    resumeOnce (fst s) = [] ->
    (length (timers (snd s)) + suspended (snd s) = 1)%nat ->
    (suspended (snd s) <> 0%nat -> isPaused (fst s) = true) ->
    mined (log (fst s)) = mined (log b0) ++ repeat (-1) k ->
    (k + suspended (snd s) <= fired)%nat ->
    (length (timers (snd (loopRun C events s)))
     + suspended (snd (loopRun C events s)) = 1)%nat
    /\ (suspended (snd (loopRun C events s)) <> 0%nat ->
        isPaused (fst (loopRun C events s)) = true)
    /\ exists k',
         mined (log (fst (loopRun C events s)))
         = mined (log b0) ++ repeat (-1) k'
         /\ (k' + suspended (snd (loopRun C events s))
             <= fired + timerEvents events)%nat.
Proof.
  induction events as [|e rest IH];
    intros s fired k Hlatest Hnone Hone Hpaused Hmined Hbound.
  - cbn [loopRun fold_left]. split; [exact Hone|]. split; [exact Hpaused|].
    exists k. split; [exact Hmined|]. unfold timerEvents. cbn. lia.
  - destruct (loopStep_keeps b0 latestBlock e s fired k Hlatest Hnone Hone
                Hpaused Hmined Hbound)
      as (Hl & Hr & Ho & Hp & k' & Hm & Hb).
    change (loopRun C (e :: rest) s) with (loopRun C rest (loopStep C s e)).
    destruct (IH (loopStep C s e) (fired + timerEvents [e])%nat k'
                Hl Hr Ho Hp Hm Hb) as (Hone' & Hpaused' & k'' & Hm' & Hb').
    split; [exact Hone'|]. split; [exact Hpaused'|].
    exists k''. split; [exact Hm'|].
    rewrite timerEvents_cons. lia.
Qed.

(** X18.  Mining on an interval, on a chain with a latest block, through
    any sequence of timer firings, [pause()] calls and [resume()] calls:
    there is always exactly one timeout set or one call of [intervalMine]
    waiting for ["resume"], never both and never two (the loop neither
    stops nor doubles); a call waits only while the chain is paused; the
    miner is only ever asked for [mine(-1)], and at most once per firing
    of the timer. *)
Theorem interval_mining_keeps_one_timer
    (events : list LoopEvent) (due : Z) (b : Blockchain W)
    (latestBlock : Block) :
  latest b = Some latestBlock ->
  resumeOnce b = [] ->
  (length (timers (snd (loopRun C events (b, mkIntervalLoop [due] 0))))
   + suspended (snd (loopRun C events (b, mkIntervalLoop [due] 0))) = 1)%nat
  /\ (suspended (snd (loopRun C events (b, mkIntervalLoop [due] 0))) <> 0%nat ->
      isPaused (fst (loopRun C events (b, mkIntervalLoop [due] 0))) = true)
  /\ exists k,
       mined (log (fst (loopRun C events (b, mkIntervalLoop [due] 0))))
       = mined (log b) ++ repeat (-1) k
       /\ (k + suspended (snd (loopRun C events (b, mkIntervalLoop [due] 0)))
           <= timerEvents events)%nat.
Proof.
  intros Hlatest Hnone.
  apply (loopRun_keeps b latestBlock events (b, mkIntervalLoop [due] 0) 0 0);
    cbn [fst snd timers suspended length repeat].
  - exact Hlatest.
  - exact Hnone.
  - reflexivity.
  - intros Hne. contradiction.
  - rewrite app_nil_r. reflexivity.
  - lia.
Qed.

End IntervalMining.

Lemma interval_mining_keeps_one_timer_witness :
  latest Sample.intervalChain = Some Sample.genesis
  /\ timers (snd (loopRun Reference.collaborators
                    [TimerAt 2000; PauseCalled; TimerAt 5000; TimerAt 6000;
                     ResumeCalled 7000]
                    (Sample.intervalChain, mkIntervalLoop [2000] 0)))
     = [9000]
  /\ Nat.add
       (length (timers (snd (loopRun Reference.collaborators
                               [TimerAt 2000; PauseCalled; TimerAt 5000;
                                TimerAt 6000; ResumeCalled 7000]
                               (Sample.intervalChain, mkIntervalLoop [2000] 0)))))
       (suspended (snd (loopRun Reference.collaborators
                          [TimerAt 2000; PauseCalled; TimerAt 5000;
                           TimerAt 6000; ResumeCalled 7000]
                          (Sample.intervalChain, mkIntervalLoop [2000] 0))))
     = 1%nat.
Proof.
  split; [reflexivity|]. split; [reflexivity|].
  exact (proj1 (interval_mining_keeps_one_timer Reference.collaborators
                  [TimerAt 2000; PauseCalled; TimerAt 5000; TimerAt 6000;
                   ResumeCalled 7000]
                  2000 Sample.intervalChain Sample.genesis eq_refl eq_refl)).
Defined.

Lemma firstBlockTime_sets_clock_witness :
  fst (firstBlockTime 1600000000000 (Some 1577836800000) Sample.startedChain)
  = 1577836800000
  /\ 1600000000000 mod 1000 = 0
  /\ currentTime 1600000000000
       (snd (firstBlockTime 1600000000000 (Some 1577836800000)
               Sample.startedChain))
     = 1577836800.
Proof.
  destruct (firstBlockTime_sets_clock 1600000000000 1577836800000
              Sample.startedChain) as (Hfirst & _ & _ & Hexact).
  split; [exact Hfirst|]. split; [reflexivity|].
  rewrite (Hexact eq_refl). reflexivity.
Defined.

(** ** What revert does to the outside *)

Section RevertEffects.
Context {W : Type} (C : Collaborators W).

Lemma deleteBlockData_ops_deletions (block : Block) :
  forallb is_deletion (deleteBlockData_ops C block) = true.
Proof.
  unfold deleteBlockData_ops. cbn [forallb is_deletion andb].
  induction (transactions block) as [|tx rest IH]; [reflexivity|].
  cbn [flat_map app forallb is_deletion andb]. exact IH.
Qed.

(** The walk back logs one batch of deletions per block it visits, the
    first for the block it starts from. *)
Lemma revert_walk_log (fuel : nat) (snapshotHash : Buffer) :
  forall (nextBlock : Block) (b walked : Blockchain W),
    revert_walk C fuel snapshotHash nextBlock b = Some walked ->
    exists visited,
      log walked
      = log b
        ++ map (fun blk => Batch (deleteBlockData_ops C blk))
             (nextBlock :: visited).
Proof.
  induction fuel as [|fuel IH]; intros nextBlock b walked Hwalk;
    [discriminate|].
  cbn [revert_walk] in Hwalk.
  destruct (equals (parentHash (header nextBlock)) snapshotHash).
  - injection Hwalk as <-. exists []. reflexivity.
  - destruct (blocks_get C (number (header nextBlock))
                (world (deleteBlockData C nextBlock b))) as [next|].
    + destruct (IH _ _ _ Hwalk) as (visited & Hlog).
      exists (next :: visited). rewrite Hlog.
      unfold deleteBlockData, database_batch, set_world, record. cbn [log].
      rewrite <- app_assoc. reflexivity.
    + injection Hwalk as <-. exists []. reflexivity.
Qed.

Lemma deletion_batches (visited : list Block) :
  emitted (map (fun blk => Batch (deleteBlockData_ops C blk)) visited) = []
  /\ mined (map (fun blk => Batch (deleteBlockData_ops C blk)) visited) = []
  /\ forallb is_deletion
       (written (map (fun blk => Batch (deleteBlockData_ops C blk)) visited))
     = true.
Proof.
  induction visited as [|blk rest (He & Hm & Hw)]; [repeat split|].
  cbn [map]. split; [exact He|]. split; [exact Hm|].
  change (written (Batch ?ops :: ?l)) with (ops ++ written l).
  rewrite forallb_app, deleteBlockData_ops_deletions, Hw. reflexivity.
Qed.

(** X19.  However [revert] ends, what it has done to the outside by then
    is at most one [setStateRoot] followed by batches of deletions, the
    first of them for the block that was latest: it emits no event, never
    calls the miner, and writes nothing to the database but deletions. *)
Theorem revert_only_deletes
    (fuel : nat) (snapshotId : Quantity) (b after : Blockchain W)
    (outcome : Completion bool) :
  revert C fuel snapshotId b = Some (outcome, after) ->
  exists suffix,
    log after = log b ++ suffix
    /\ emitted suffix = []
    /\ mined suffix = []
    /\ forallb is_deletion (written suffix) = true
    /\ (suffix = []
        \/ exists root latestBlock visited,
             latest b = Some latestBlock
             /\ suffix
                = SetStateRoot root
                  :: map (fun blk => Batch (deleteBlockData_ops C blk))
                       (latestBlock :: visited)).
Proof.
  intros Hrevert.
  assert (Hnothing :
    forall b' : Blockchain W,
      log b' = log b ->
      exists suffix,
        log b' = log b ++ suffix
        /\ emitted suffix = []
        /\ mined suffix = []
        /\ forallb is_deletion (written suffix) = true
        /\ (suffix = []
            \/ exists root latestBlock visited,
                 latest b = Some latestBlock
                 /\ suffix
                    = SetStateRoot root
                      :: map (fun blk => Batch (deleteBlockData_ops C blk))
                           (latestBlock :: visited))).
  { intros b' Hlog. exists []. rewrite app_nil_r.
    split; [exact Hlog|]. repeat split. left. reflexivity. }
  unfold revert in Hrevert.
  destruct (valueOf snapshotId) as [| |rawValue].
  1,2: injection Hrevert as _ <-; apply Hnothing; reflexivity.
  destruct (rawValue - 1 <? 0).
  { injection Hrevert as _ <-. apply Hnothing. reflexivity. }
  destruct (skipn (Z.to_nat (rawValue - 1)) (snapshots b))
    as [|snapshot later].
  { injection Hrevert as _ <-. apply Hnothing. reflexivity. }
  cbn [latest set_snapshots] in Hrevert.
  destruct (latest b) as [currentBlock|] eqn:Hlatest.
  2:{ injection Hrevert as _ <-. apply Hnothing. reflexivity. }
  destruct (equals _ _).
  { injection Hrevert as _ <-. apply Hnothing. reflexivity. }
  destruct (revert_walk C fuel (snap_hash snapshot) currentBlock _)
    as [walked|] eqn:Hwalk; [|discriminate].
  destruct (revert_walk_log _ _ _ _ _ Hwalk) as (visited & Hlog).
  assert (Hwalked :
    log walked
    = log b
      ++ SetStateRoot (snap_stateRoot snapshot)
         :: map (fun blk => Batch (deleteBlockData_ops C blk))
              (currentBlock :: visited)).
  { rewrite Hlog. unfold record. cbn [log].
    destruct (setStateRoot C (snap_stateRoot snapshot) _);
      cbn [log set_world set_snapshots]; rewrite <- app_assoc; reflexivity. }
  destruct (deletion_batches (currentBlock :: visited)) as (He & Hm & Hw).
  exists (SetStateRoot (snap_stateRoot snapshot)
          :: map (fun blk => Batch (deleteBlockData_ops C blk))
               (currentBlock :: visited)).
  split.
  - destruct (setStateRoot C (snap_stateRoot snapshot) _);
      injection Hrevert as _ <-; exact Hwalked.
  - split; [exact He|]. split; [exact Hm|]. split; [exact Hw|].
    right. exists (snap_stateRoot snapshot), currentBlock, visited.
    split; reflexivity.
Qed.

End RevertEffects.

Lemma revert_only_deletes_witness :
  match revert Reference.collaborators 1 (mkQuantity (RawBigInt 1))
          Sample.minedChain with
  | Some (outcome, after) =>
      exists suffix,
        log after = log Sample.minedChain ++ suffix
        /\ emitted suffix = []
        /\ forallb is_deletion (written suffix) = true
  | None => False
  end.
Proof.
  destruct (revert Reference.collaborators 1 (mkQuantity (RawBigInt 1))
              Sample.minedChain) as [[outcome after]|] eqn:Hrevert.
  - destruct (revert_only_deletes Reference.collaborators 1
                (mkQuantity (RawBigInt 1)) Sample.minedChain after outcome
                Hrevert)
      as (suffix & Hlog & Hemitted & _ & Hwritten & _).
    exists suffix. split; [exact Hlog|]. split; assumption.
  - vm_compute in Hrevert. discriminate.
Defined.
